(** * pagination: a shallow embedding of [pagination.go]

    The Go package computes pagination metadata from three machine
    integers.  The embedding keeps the data as the program has it:

    - Go's [int] is the 64-bit two's complement integer of the common
      targets, carried as a [Z] together with its wrap-around;
    - [float64] is IEEE-754 binary64, carried by the executable
      specification [spec_float] of the standard library
      (precision 53, maximal exponent 1024, round to nearest even);
    - [url.Values] is a finite map from strings to lists of strings;
    - a value of type [interface{}] is a small universe of Go values
      tagged with its [reflect.Kind];
    - a panic is an explicit outcome, and the goroutine of [PagesStream]
      is a transition system over an unbuffered channel. *)

From stdpp Require Import gmap strings list.
From Stdlib Require Import ZArith Lia List String Ascii Bool Sorted.
From Stdlib Require Import Floats.SpecFloat.
Import ListNotations.

Local Open Scope Z_scope.

(** ** Machine integers *)

Module GoInt.

Definition int_min : Z := - 2 ^ 63.
Definition int_max : Z := 2 ^ 63 - 1.

(** [in_int z]: [z] is a value of Go's type [int]. *)
Definition in_int (z : Z) : Prop := int_min <= z <= int_max.

(** Two's complement wrap-around of a mathematical result. *)
Definition wrap (z : Z) : Z := (z + 2 ^ 63) mod 2 ^ 64 - 2 ^ 63.

Definition add (a b : Z) : Z := wrap (a + b).
Definition sub (a b : Z) : Z := wrap (a - b).
Definition mul (a b : Z) : Z := wrap (a * b).

End GoInt.

(** Goals about the range of [int] are linear once its bounds are
    unfolded. *)
Ltac int_bounds := unfold GoInt.in_int, GoInt.int_min, GoInt.int_max in *.
Ltac int_lia := int_bounds; lia.

(** ** Binary64 floating point *)

Module Float64.

Definition prec : Z := 53.
Definition emax : Z := 1024.

Definition float64 : Type := spec_float.

(** The conversion [float64(n)] of an [int]: the nearest binary64 value,
    ties to even. *)
Definition of_int (n : Z) : float64 := binary_normalize prec emax n 0 false.

(** The quotient [x / y] of two [float64] values. *)
Definition div (x y : float64) : float64 := SFdiv prec emax x y.

(** [math.Ceil]: the least integral value not below [x]; zeros,
    infinities and NaN are returned unchanged, and a result that rounds
    up to zero keeps the sign of [x]. *)
Definition Ceil (x : float64) : float64 :=
  match x with
  | S754_finite s m e =>
      if 0 <=? e then x
      else
        let d := 2 ^ (- e) in
        let c := if s then - (Z.pos m / d) else (Z.pos m + d - 1) / d in
        binary_normalize prec emax c 0 s
  | _ => x
  end.

(** The conversion [int(x)] of a [float64]: the fraction is discarded
    (truncation towards zero).  Go leaves the result for NaN, the
    infinities and values outside the range of [int] to the
    implementation; on amd64 the conversion instruction yields the
    "integer indefinite" value, the least [int]. *)
Definition to_int (x : float64) : Z :=
  match x with
  | S754_zero _ => 0
  | S754_finite s m e =>
      let a := if 0 <=? e then Z.pos m * 2 ^ e else Z.pos m / 2 ^ (- e) in
      let v := if s then - a else a in
      if (GoInt.int_min <=? v) && (v <=? GoInt.int_max) then v
      else GoInt.int_min
  | _ => GoInt.int_min
  end.

End Float64.

(** ** Outcomes of a call that may panic *)

Inductive outcome (A : Type) : Type :=
| Returned (a : A)
| Panicked (msg : string).

Arguments Returned {A} a.
Arguments Panicked {A} msg.

(** ** Go values behind [interface{}] *)

(** [reflect.Kind], in the order of the [reflect] package. *)
Module reflect.



End reflect.

(** The dynamic values the callers of the package hand over: the nil
    interface, scalars, and the aggregate shapes. *)
#[warnings="-register-all"] Inductive value : Type :=
| VNil
| VBool (b : bool)
| VInt (z : Z)
| VFloat64 (f : Float64.float64)
| VString (s : string)
| VArray (elems : list value)
| VSlice (elems : list value)
| VMap (entries : list (value * value))
| VStruct (fields : list (string * value)).




(** ** The two records of the package *)

Record Paginator : Type := mkPaginator {
  itemsPerPage : Z;
  numberOfItems : Z;
  currentPage : Z
}.

Module Pagination.

Record t : Type := mk {
  ItemsPerPage : Z;
  NumberOfItems : Z;
  CurrentPage : Z;
  Offset : Z;
  NextPage : Z;
  PreviousPage : Z;
  TotalPages : Z;
  Data : list value
}.

End Pagination.

(** ** Construction *)

(** The page count both [New] and [NumberOfPages] compute:
    [int(math.Ceil(float64(numberOfItems) / float64(itemsPerPage)))]. *)
Definition ceil_quotient (numberOfItems itemsPerPage : Z) : Z :=
  Float64.to_int
    (Float64.Ceil
       (Float64.div (Float64.of_int numberOfItems)
                    (Float64.of_int itemsPerPage))).

Definition New (numberOfItems itemsPerPage currentPage : Z) : Paginator :=
  let currentPage := if currentPage =? 0 then 1 else currentPage in
  let n := ceil_quotient numberOfItems itemsPerPage in
  let currentPage := if currentPage >? n then n else currentPage in
  mkPaginator itemsPerPage numberOfItems currentPage.

(** ** Accessors *)

Definition CurrentPage (p : Paginator) : Z := currentPage p.
Definition NumberOfItems (p : Paginator) : Z := numberOfItems p.
Definition ItemsPerPage (p : Paginator) : Z := itemsPerPage p.

Definition Offset (p : Paginator) : Z :=
  GoInt.mul (GoInt.sub (CurrentPage p) 1) (ItemsPerPage p).

Definition NumberOfPages (p : Paginator) : Z :=
  ceil_quotient (NumberOfItems p) (ItemsPerPage p).

Definition PreviousPage (p : Paginator) : Z :=
  if CurrentPage p <=? 1 then 1 else GoInt.sub (CurrentPage p) 1.

Definition NextPage (p : Paginator) : Z :=
  if CurrentPage p >=? NumberOfPages p then NumberOfPages p
  else GoInt.add (CurrentPage p) 1.

Definition IsCurrentPage (p : Paginator) (page : Z) : bool :=
  CurrentPage p =? page.

Definition Show (p : Paginator) : bool := NumberOfPages p >? 1.


(** ** Page lists *)

(** The loop of [Pages]: [for i := 1; i <= p.NumberOfPages(); i++]
    appends [i] to [s]; the bound is recomputed at every test and the
    increment is the machine one.  [None] is a run that needs more
    iterations than [fuel]. *)
Fixpoint Pages_loop (fuel : nat) (p : Paginator) (i : Z) (s : list Z)
  : option (list Z) :=
  match fuel with
  | O => None
  | S fuel' =>
      if i <=? NumberOfPages p
      then Pages_loop fuel' p (GoInt.add i 1) (s ++ [i])
      else Some s
  end.

(** The allocation check of the runtime, for linux/amd64: [makeslice]
    multiplies the element size by [uintptr(cap)] and panics when the
    product overflows or exceeds [maxAlloc], which is [2 ^ 48] bytes.  An
    [int] takes 8 bytes, and a negative [cap] is as [uintptr] at least
    [2 ^ 63], so [make([]int, 0, cap)] passes the check exactly for
    [0 <= cap <= 2 ^ 45].  Whether the machine then has the memory is
    outside the model. *)
Module runtime.

Definition maxAlloc : Z := 2 ^ 48.

Definition int_size : Z := 8.

Definition makeslice_cap_ok (cap : Z) : bool :=
  (0 <=? cap) && (int_size * cap <=? maxAlloc).

End runtime.

(** [Pages]: [make([]int, 0, p.NumberOfPages())] panics when the capacity
    fails the check of [makeslice]; otherwise the loop appends within the
    capacity.  The message is the error string of the runtime, which its
    [Error] method prints after [runtime error: ]. *)
Definition Pages (fuel : nat) (p : Paginator) : option (outcome (list Z)) :=
  if runtime.makeslice_cap_ok (NumberOfPages p)
  then option_map Returned (Pages_loop fuel p 1 [])
  else Some (Panicked "makeslice: cap out of range").

(** ** The page stream

    [PagesStream] starts a goroutine that sends 1, 2, ... on an
    unbuffered channel and closes it after the last page.  On an
    unbuffered channel a send completes only in a hand-off with a
    receiver, so the goroutine is either parked at [stream <- i] or has
    closed the channel and returned. *)
Inductive producer : Type :=
| Sending (i : Z)
| Exited.

(** The loop test at index [i]: park at the send, or close and return. *)
Definition producer_at (p : Paginator) (i : Z) : producer :=
  if i <=? NumberOfPages p then Sending i else Exited.

(** The state of the goroutine when [PagesStream] hands the channel to
    its caller. *)
Definition PagesStream (p : Paginator) : producer := producer_at p 1.

(** One receive by the consumer: the value handed over by a parked
    producer, which then runs to its next send or to its exit; on the
    closed channel the receive reports that nothing is left. *)
Definition receive (p : Paginator) (st : producer) : option Z * producer :=
  match st with
  | Sending i => (Some i, producer_at p (GoInt.add i 1))
  | Exited => (None, Exited)
  end.

(** [for v := range stream]: receive until the channel is closed,
    collecting the values. *)
Fixpoint range_stream (fuel : nat) (p : Paginator) (st : producer)
    (acc : list Z) : option (list Z * producer) :=
  match fuel with
  | O => None
  | S fuel' =>
      match receive p st with
      | (Some v, st') => range_stream fuel' p st' (acc ++ [v])
      | (None, st') => Some (acc, st')
      end
  end.

(** A consumer that leaves its loop after [k] receives and never touches
    the channel again; the result is the state the goroutine is left in,
    together with what was received. *)
Fixpoint take_stream (k : nat) (p : Paginator) (st : producer)
    (acc : list Z) : list Z * producer :=
  match k with
  | O => (acc, st)
  | S k' =>
      match receive p st with
      | (Some v, st') => take_stream k' p st' (acc ++ [v])
      | (None, st') => (acc, st')
      end
  end.

(** A goroutine parked at a send moves only by a receive: without one it
    stays parked. *)
Definition parked (st : producer) : bool :=
  match st with
  | Sending _ => true
  | Exited => false
  end.

(** ** Projection to the serialisable record *)

Definition ToPagination (p : Paginator) : Pagination.t :=
  Pagination.mk (ItemsPerPage p) (NumberOfItems p) (CurrentPage p)
    (Offset p) (NextPage p) (PreviousPage p) (NumberOfPages p) [].





(** ** The request adapter *)

(** [strconv] of the Go standard library, as its source and documentation
    give it.  [Atoi(s)] is [ParseInt(s, 10, 0)] converted to [int]; the
    error it returns next to the number is a syntax error or a range
    error. *)
Module strconv.

Inductive NumError : Type := ErrSyntax | ErrRange.

Definition maxUint64 : Z := 2 ^ 64 - 1.

(** The decimal digit a byte stands for, if any. *)
Definition digit (c : ascii) : option Z :=
  let b := Z.of_N (N_of_ascii c) in
  if (48 <=? b) && (b <=? 57) then Some (b - 48) else None.

(** The loop of [ParseUint] in base 10 for 64 bits: a byte that is no
    digit ends the parse with a syntax error and 0; a number that leaves
    [uint64] ends it at once, before the remaining bytes are looked at,
    with a range error and the largest [uint64]. *)
Fixpoint ParseUint_loop (s : string) (n : Z) : Z * option NumError :=
  match s with
  | EmptyString => (n, None)
  | String c s' =>
      match digit c with
      | None => (0, Some ErrSyntax)
      | Some d =>
          if n >=? maxUint64 / 10 + 1 then (maxUint64, Some ErrRange)
          else
            let n1 := n * 10 + d in
            if n1 >? maxUint64 then (maxUint64, Some ErrRange)
            else ParseUint_loop s' n1
      end
  end.

Definition ParseUint (s : string) : Z * option NumError :=
  match s with
  | EmptyString => (0, Some ErrSyntax)
  | _ => ParseUint_loop s 0
  end.

(** [ParseInt(s, 10, 0)]: an optional sign, then [ParseUint]; a
    magnitude outside [int] gives a range error together with the
    [int] of largest magnitude and the sign of the input. *)
Definition ParseInt (s : string) : Z * option NumError :=
  match s with
  | EmptyString => (0, Some ErrSyntax)
  | String c rest =>
      let neg := Ascii.eqb c "-" in
      let s1 := if Ascii.eqb c "+" || neg then rest else s in
      match ParseUint s1 with
      | (_, Some ErrSyntax) => (0, Some ErrSyntax)
      | (un, _) =>
          let cutoff := 2 ^ 63 in
          if negb neg && (un >=? cutoff) then (cutoff - 1, Some ErrRange)
          else if neg && (un >? cutoff) then (- cutoff, Some ErrRange)
          else (if neg then - un else un, None)
      end
  end.

Definition Atoi (s : string) : Z * option NumError := ParseInt s.

End strconv.

(** [net/url] and [net/http]: of a request the adapter reads only the
    parsed query of its URL, a [url.Values]. *)
Record URL : Type := mkURL {
  Query : gmap string (list string)
}.

Record Request : Type := mkRequest {
  req_URL : URL
}.

(** [url.Values.Get]: the first value stored under the key, or the empty
    string. *)
Definition Values_Get (v : gmap string (list string)) (key : string)
  : string :=
  match v !! key with
  | Some (x :: _) => x
  | _ => ""%string
  end.

Definition NewFromRequest (numberOfItems itemsPerPage : Z) (req : Request)
  : Paginator :=
  let currentPageString := Values_Get (Query (req_URL req)) "page" in
  let '(currentPage, _) := strconv.Atoi currentPageString in
  New numberOfItems itemsPerPage currentPage.

(** ** Reference notions the properties are stated against *)

(** The ceiling of the exact quotient [n / d] for a positive [d]. *)
Definition ceil_div (n d : Z) : Z := (n + d - 1) / d.

(** The ascending run [lo, lo + 1, ...] of [len] integers. *)
Fixpoint Zseq (lo : Z) (len : nat) : list Z :=
  match len with
  | O => []
  | S len' => lo :: Zseq (lo + 1) len'
  end.

(** The range in which [float64] carries an [int] without rounding. *)
Definition exact_int (z : Z) : Prop := 0 <= z < 2 ^ 53.

(** The sign and the body of a numeral: a leading [+] or [-] is the
    sign, what follows it is the body. *)
Definition sign_and_digits (s : string) : bool * string :=
  match s with
  | EmptyString => (false, EmptyString)
  | String c rest =>
      if Ascii.eqb c "-" then (true, rest)
      else if Ascii.eqb c "+" then (false, rest)
      else (false, s)
  end.

(** A string made of decimal digits only, and the number its leading
    digits spell, most significant digit first: [decimal_value] stops at
    the first byte that is no digit. *)
Fixpoint all_digits (s : string) : bool :=
  match s with
  | EmptyString => true
  | String c s' =>
      match strconv.digit c with
      | Some _ => all_digits s'
      | None => false
      end
  end.

Fixpoint decimal_value (s : string) (acc : Z) : Z :=
  match s with
  | EmptyString => acc
  | String c s' =>
      match strconv.digit c with
      | Some d => decimal_value s' (acc * 10 + d)
      | None => acc
      end
  end.

(** ** Rounding of a quotient mantissa

    [binary_round_aux] receives the quotient mantissa [M] of a division
    together with the location of the exact quotient between [M] and
    [M + 1].  For a mantissa of 53 or 54 digits the two definitions below
    give the rounded mantissa at the scale of [M]. *)

(** The location after one more digit of [M] is shifted out. *)
Definition half_loc (M : Z) (l : location) : location :=
  match Z.odd M, l with
  | false, loc_Exact => loc_Exact
  | false, loc_Inexact _ => loc_Inexact Lt
  | true, loc_Exact => loc_Inexact Eq
  | true, loc_Inexact _ => loc_Inexact Gt
  end.

Definition round_at (M : Z) (l : location) : Z :=
  if M <? 2 ^ 53 then round_nearest_even M l
  else 2 * round_nearest_even (M / 2) (half_loc M l).

(** * Facts about binary64 *)

(** ** Digits and shifts *)

Lemma digits2_pos_bounds (p : positive) :
  2 ^ (Z.pos (digits2_pos p) - 1) <= Z.pos p < 2 ^ Z.pos (digits2_pos p).
Proof.
  induction p as [p IH | p IH |]; cbn [digits2_pos]; [ | | cbn; lia];
    rewrite Pos2Z.inj_succ;
    replace (Z.succ (Z.pos (digits2_pos p)) - 1)
      with (Z.succ (Z.pos (digits2_pos p) - 1)) by lia;
    rewrite !Z.pow_succ_r by lia; lia.
Qed.

Lemma digits2_pos_unique (p : positive) (k : Z) :
  2 ^ (k - 1) <= Z.pos p < 2 ^ k -> Z.pos (digits2_pos p) = k.
Proof.
  intros [Hlo Hhi].
  pose proof (digits2_pos_bounds p) as [Blo Bhi].
  set (j := Z.pos (digits2_pos p)) in *.
  assert (0 < j) by (subst j; lia).
  destruct (Z.lt_trichotomy j k) as [Hlt | [Heq | Hgt]]; [ | exact Heq | ].
  - exfalso. assert (2 ^ j <= 2 ^ (k - 1)) by (apply Z.pow_le_mono_r; lia). lia.
  - exfalso. assert (0 <= k).
    { destruct (Z.le_gt_cases 0 k); [assumption|].
      rewrite (Z.pow_neg_r 2 k) in Hhi by lia. lia. }
    assert (2 ^ k <= 2 ^ (j - 1)) by (apply Z.pow_le_mono_r; lia). lia.
Qed.

Lemma pos_iter_xO (p d : positive) :
  Z.pos (Pos.iter xO p d) = Z.pos p * 2 ^ Z.pos d.
Proof.
  induction d as [|d IH] using Pos.peano_ind.
  - cbn. lia.
  - rewrite Pos.iter_succ, Pos2Z.inj_xO, IH, Pos2Z.inj_succ, Z.pow_succ_r by lia. lia.
Qed.

(** ** The rounding step *)

Lemma fexp64 (e : Z) : -1021 <= e -> fexp 53 1024 e = e - 53.
Proof. intros H. unfold fexp, emin. lia. Qed.

Lemma loc_of_shr_record_of_loc (m : Z) (l : location) :
  loc_of_shr_record (shr_record_of_loc m l) = l.
Proof. destruct l as [|[]]; reflexivity. Qed.

Lemma shr_m_of_loc (m : Z) (l : location) : shr_m (shr_record_of_loc m l) = m.
Proof. destruct l as [|[]]; reflexivity. Qed.

Lemma shr_1_pos (m : positive) (l : location) :
  (2 <= Z.pos m) ->
  shr_m (shr_1 (shr_record_of_loc (Z.pos m) l)) = Z.pos m / 2 /\
  loc_of_shr_record (shr_1 (shr_record_of_loc (Z.pos m) l)) = half_loc (Z.pos m) l.
Proof.
  intros Hm. destruct m as [m|m|]; [ | | lia].
  - split.
    + destruct l as [|[]]; cbn [shr_record_of_loc shr_1 shr_m]; rewrite Pos2Z.inj_xI;
        apply (Z.div_unique _ _ _ 1); lia.
    + destruct l as [|[]]; reflexivity.
  - split.
    + destruct l as [|[]]; cbn [shr_record_of_loc shr_1 shr_m]; rewrite Pos2Z.inj_xO;
        apply (Z.div_unique _ _ _ 0); lia.
    + destruct l as [|[]]; reflexivity.
Qed.

(** The last step of [binary_round_aux]: a rounded mantissa of 53 digits
    is kept, the carry [2 ^ 53] is renormalised. *)
Lemma bra_tail (s : bool) (mr e : Z) :
  2 ^ 52 <= mr <= 2 ^ 53 -> -1000 <= e <= 900 ->
  exists mz ez,
    (let '(mrs, e') := shr_fexp 53 1024 mr e loc_Exact in
     match shr_m mrs with
     | Z0 => S754_zero s
     | Zpos m => if e' <=? 1024 - 53 then S754_finite s m e' else S754_infinity s
     | Zneg _ => S754_nan
     end) = S754_finite s mz ez /\
    2 ^ 52 <= Z.pos mz < 2 ^ 53 /\ e <= ez <= e + 1 /\
    Z.pos mz * 2 ^ (ez - e) = mr.
Proof.
  intros Hm He.
  destruct mr as [|p|p]; try lia.
  destruct (Z.eq_dec (Z.pos p) (2 ^ 53)) as [Heq | Hne].
  - exists (4503599627370496)%positive, (e + 1).
    assert (p = 9007199254740992%positive) by lia. subst p.
    unfold shr_fexp. cbn [Zdigits2].
    replace (Z.pos (digits2_pos 9007199254740992)) with 54 by (vm_compute; reflexivity).
    rewrite fexp64 by lia.
    replace (54 + e - 53 - e) with 1 by lia.
    cbn [shr iter_pos shr_record_of_loc shr_1 shr_m].
    replace (e + 1 <=? 1024 - 53) with true by (symmetry; apply Z.leb_le; lia).
    repeat split; try lia.
    replace (e + 1 - e) with 1 by lia. reflexivity.
  - exists p, e.
    assert (Hd : Z.pos (digits2_pos p) = 53) by (apply digits2_pos_unique; lia).
    unfold shr_fexp. cbn [Zdigits2]. rewrite Hd, fexp64 by lia.
    replace (53 + e - 53 - e) with 0 by lia.
    cbn [shr shr_record_of_loc shr_m].
    replace (e <=? 1024 - 53) with true by (symmetry; apply Z.leb_le; lia).
    repeat split; try lia.
    rewrite Z.sub_diag. lia.
Qed.

Lemma round_nearest_even_bounds (m : Z) (l : location) :
  m <= round_nearest_even m l <= m + 1.
Proof. destruct l as [|[]]; cbn [round_nearest_even]; try destruct (Z.even m); lia. Qed.

Lemma bra_value (s : bool) (M e : Z) (l : location) :
  2 ^ 52 <= M < 2 ^ 54 -> -900 <= e <= 800 ->
  exists mz ez,
    binary_round_aux 53 1024 s M e l = S754_finite s mz ez /\
    2 ^ 52 <= Z.pos mz < 2 ^ 53 /\ e <= ez <= e + 2 /\
    Z.pos mz * 2 ^ (ez - e) = round_at M l.
Proof.
  intros HM He.
  destruct M as [|p|p]; try lia.
  unfold binary_round_aux, round_at.
  destruct (Z.ltb_spec (Z.pos p) (2 ^ 53)) as [Hlt | Hge].
  - assert (Hd : Z.pos (digits2_pos p) = 53) by (apply digits2_pos_unique; lia).
    unfold shr_fexp at 1. cbn [Zdigits2]. rewrite Hd, fexp64 by lia.
    replace (53 + e - 53 - e) with 0 by lia.
    cbn [shr]. rewrite shr_m_of_loc, loc_of_shr_record_of_loc.
    pose proof (round_nearest_even_bounds (Z.pos p) l) as Hr.
    destruct (bra_tail s (round_nearest_even (Z.pos p) l) e)
      as (mz & ez & Heq & Hb & Hez & Hv); [lia | lia |].
    exists mz, ez. rewrite Heq. repeat split; try lia.
  - assert (Hd : Z.pos (digits2_pos p) = 54) by (apply digits2_pos_unique; lia).
    unfold shr_fexp at 1. cbn [Zdigits2]. rewrite Hd, fexp64 by lia.
    replace (54 + e - 53 - e) with 1 by lia.
    cbn [shr iter_pos].
    destruct (shr_1_pos p l) as [Hsm Hsl]; [lia|].
    rewrite Hsm, Hsl.
    pose proof (round_nearest_even_bounds (Z.pos p / 2) (half_loc (Z.pos p) l)) as Hr.
    assert (2 ^ 52 <= Z.pos p / 2 < 2 ^ 53).
    { split; [apply Z.div_le_lower_bound; lia | apply Z.div_lt_upper_bound; lia]. }
    set (mr := round_nearest_even (Z.pos p / 2) (half_loc (Z.pos p) l)) in *.
    destruct (bra_tail s mr (e + 1)) as (mz & ez & Heq & Hb & Hez & Hv);
      [lia | lia |].
    exists mz, ez. rewrite Heq. repeat split; try lia.
    rewrite <- Hv. replace (ez - e) with (Z.succ (ez - (e + 1))) by lia.
    rewrite Z.pow_succ_r by lia. lia.
Qed.

(** ** Conversions and division on exact operands *)

Lemma round_at_exact (M : Z) : 2 ^ 52 <= M < 2 ^ 53 -> round_at M loc_Exact = M.
Proof.
  intros H. unfold round_at.
  destruct (Z.ltb_spec M (2 ^ 53)); [reflexivity | lia].
Qed.

(** [float64(n)] is exact below [2 ^ 53]: the mantissa is [n] shifted to
    53 digits. *)
Lemma of_int_exact (n : Z) :
  0 < n < 2 ^ 53 ->
  exists m a,
    Float64.of_int n = S754_finite false m (- a) /\
    0 <= a <= 52 /\ Z.pos m = n * 2 ^ a /\ 2 ^ 52 <= Z.pos m < 2 ^ 53.
Proof.
  intros Hn. destruct n as [|p|p]; try lia.
  pose proof (digits2_pos_bounds p) as [Blo Bhi].
  set (k := Z.pos (digits2_pos p)) in *.
  assert (Hk : 1 <= k <= 53).
  { split; [subst k; lia|].
    destruct (Z.le_gt_cases k 53); [assumption|].
    assert (2 ^ 53 <= 2 ^ (k - 1)) by (apply Z.pow_le_mono_r; lia). lia. }
  assert (Hshl : exists mz, shl_align p 0 (fexp 53 1024 (k + 0)) = (mz, k - 53) /\
                            Z.pos mz = Z.pos p * 2 ^ (53 - k)).
  { rewrite fexp64 by lia. unfold shl_align.
    destruct (k + 0 - 53 - 0) as [|q|q] eqn:Hq; try lia.
    - exists p. split; [f_equal; lia|]. replace (53 - k) with 0 by lia. lia.
    - exists (Pos.iter xO p q). split; [f_equal; lia|].
      rewrite pos_iter_xO. f_equal. f_equal. lia. }
  destruct Hshl as (mz & Hshl & Hmz).
  assert (Hb : 2 ^ 52 <= Z.pos mz < 2 ^ 53).
  { rewrite Hmz. split.
    - replace 52 with ((k - 1) + (53 - k)) by lia. rewrite Z.pow_add_r by lia.
      apply Z.mul_le_mono_nonneg_r; lia.
    - replace 53 with (k + (53 - k)) at 2 by lia. rewrite Z.pow_add_r by lia.
      apply Z.mul_lt_mono_pos_r; lia. }
  destruct (bra_value false (Z.pos mz) (k - 53) loc_Exact)
    as (m & ez & Heq & Hm & Hez & Hv); [lia | lia |].
  rewrite round_at_exact in Hv by lia.
  assert (ez = k - 53).
  { destruct (Z.eq_dec ez (k - 53)) as [|Hne]; [assumption|].
    exfalso. assert (2 ^ 1 <= 2 ^ (ez - (k - 53))) by (apply Z.pow_le_mono_r; lia).
    change (2 ^ 1) with 2 in *. nia. }
  subst ez. rewrite Z.sub_diag, Z.pow_0_r, Z.mul_1_r in Hv.
  exists m, (53 - k).
  unfold Float64.of_int, binary_normalize, binary_round, Float64.prec, Float64.emax.
  fold k. rewrite Hshl, Heq.
  repeat split; try lia. f_equal. lia.
Qed.

Lemma new_location_spec (nb r : Z) :
  0 <= r < nb ->
  new_location nb r = if r =? 0 then loc_Exact else loc_Inexact (2 * r ?= nb).
Proof.
  intros Hr. unfold new_location.
  destruct (Z.even nb) eqn:Hev.
  - unfold new_location_even. reflexivity.
  - unfold new_location_odd. destruct (r =? 0); [reflexivity|].
    f_equal.
    assert (Hodd : Z.odd nb = true) by (rewrite <- Z.negb_even, Hev; reflexivity).
    apply Z.odd_spec in Hodd. destruct Hodd as [j Hj].
    change (Z.pos 2 * r + Z.pos 1) with (2 * r + 1).
    destruct (Z.compare_spec (2 * r + 1) nb); symmetry.
    + apply Z.compare_lt_iff. lia.
    + apply Z.compare_lt_iff. lia.
    + apply Z.compare_gt_iff. lia.
Qed.

Lemma SFdiv_canonical (m1 m2 : positive) (e1 e2 : Z) :
  2 ^ 52 <= Z.pos m1 < 2 ^ 53 -> 2 ^ 52 <= Z.pos m2 < 2 ^ 53 ->
  -52 <= e1 <= 11 -> -52 <= e2 <= 11 ->
  Float64.div (S754_finite false m1 e1) (S754_finite false m2 e2) =
  binary_round_aux 53 1024 false
    (Z.pos m1 * 2 ^ 53 / Z.pos m2) (e1 - e2 - 53)
    (new_location (Z.pos m2) ((Z.pos m1 * 2 ^ 53) mod Z.pos m2)).
Proof.
  intros H1 H2 He1 He2.
  assert (Hd1 : Z.pos (digits2_pos m1) = 53) by (apply digits2_pos_unique; lia).
  assert (Hd2 : Z.pos (digits2_pos m2) = 53) by (apply digits2_pos_unique; lia).
  unfold Float64.div, Float64.prec, Float64.emax, SFdiv, SFdiv_core_binary.
  cbn [Zdigits2 xorb]. rewrite Hd1, Hd2, fexp64 by lia.
  replace (Z.min (53 + e1 - (53 + e2) - 53) (e1 - e2)) with (e1 - e2 - 53) by lia.
  replace (e1 - e2 - (e1 - e2 - 53)) with 53 by lia.
  rewrite Z.shiftl_mul_pow2 by lia.
  unfold Z.div, Z.modulo.
  destruct (Z.div_eucl (Z.pos m1 * 2 ^ 53) (Z.pos m2)) as [q r].
  reflexivity.
Qed.

(** [int(math.Ceil(x))] for a positive normal [x] of moderate exponent is
    the integer ceiling of its value. *)
Lemma to_int_Ceil_finite (mz : positive) (ez : Z) :
  2 ^ 52 <= Z.pos mz < 2 ^ 53 -> -900 <= ez <= 9 ->
  Float64.to_int (Float64.Ceil (S754_finite false mz ez)) =
  if 0 <=? ez then Z.pos mz * 2 ^ ez
  else (Z.pos mz + 2 ^ (- ez) - 1) / 2 ^ (- ez).
Proof.
  intros Hm He. unfold Float64.Ceil.
  destruct (Z.leb_spec 0 ez) as [Hpos | Hneg].
  - unfold Float64.to_int. destruct (Z.leb_spec 0 ez); [|lia].
    assert (2 ^ ez <= 2 ^ 9) by (apply Z.pow_le_mono_r; lia).
    assert (0 < 2 ^ ez) by (apply Z.pow_pos_nonneg; lia).
    change (2 ^ 9) with 512 in *.
    assert (Hr : GoInt.int_min <= Z.pos mz * 2 ^ ez <= GoInt.int_max).
    { unfold GoInt.int_min, GoInt.int_max. nia. }
    destruct Hr as [Hr1 Hr2].
    apply Z.leb_le in Hr1, Hr2. rewrite Hr1, Hr2. reflexivity.
  - set (d := 2 ^ (- ez)).
    assert (Hd : 2 <= d).
    { subst d. change 2 with (2 ^ 1) at 1. apply Z.pow_le_mono_r; lia. }
    set (c := (Z.pos mz + d - 1) / d).
    assert (Hc : 0 < c < 2 ^ 53).
    { subst c. split.
      - apply Z.div_str_pos. lia.
      - apply Z.div_lt_upper_bound; [lia|]. nia. }
    destruct (of_int_exact c Hc) as (m & a & Heq & Ha & Hmc & Hmb).
    fold (Float64.of_int c). rewrite Heq.
    unfold Float64.to_int.
    assert (Hval : (if 0 <=? - a then Z.pos m * 2 ^ (- a)
                    else Z.pos m / 2 ^ (- - a)) = c).
    { destruct (Z.leb_spec 0 (- a)).
      - replace a with 0 in * by lia. cbn [Z.opp]. rewrite Z.pow_0_r in *. lia.
      - rewrite Z.opp_involutive, Hmc. apply Z.div_mul.
        apply Z.pow_nonzero; lia. }
    rewrite Hval.
    assert (Hr : GoInt.int_min <= c <= GoInt.int_max).
    { unfold GoInt.int_min, GoInt.int_max. lia. }
    destruct Hr as [Hr1 Hr2].
    apply Z.leb_le in Hr1, Hr2. rewrite Hr1, Hr2. reflexivity.
Qed.

(** ** The ceiling of the rounded quotient *)

Lemma ceil_div_spec (n d : Z) :
  0 < d -> (ceil_div n d - 1) * d < n <= ceil_div n d * d.
Proof.
  intros Hd. unfold ceil_div.
  pose proof (Z.div_mod (n + d - 1) d ltac:(lia)) as Hdm.
  pose proof (Z.mod_pos_bound (n + d - 1) d Hd) as Hb.
  nia.
Qed.

Lemma ceil_div_unique (n d c : Z) :
  0 < d -> (c - 1) * d < n <= c * d -> c = ceil_div n d.
Proof.
  intros Hd Hc. pose proof (ceil_div_spec n d Hd) as Hs. nia.
Qed.

Lemma scaled_sandwich (x y g : Z) :
  0 < g -> (y - 1) * g < x * g <= y * g -> x = y.
Proof. intros Hg H. nia. Qed.

Lemma scaled_bracket (a b m s : Z) :
  0 < s -> a * s < m * s <= b * s -> a < m <= b.
Proof. intros Hs H. nia. Qed.

Lemma round_quotient_bracket (n d g : Z) :
  0 < n -> 0 < d -> d < g -> Z.even g = true ->
  let R := (n * g) mod d in
  (ceil_div n d - 1) * g
  < round_at (n * g / d) (if R =? 0 then loc_Exact else loc_Inexact (2 * R ?= d))
  <= ceil_div n d * g.
Proof.
  intros Hn Hd Hg Hev R.
  pose proof (ceil_div_spec n d Hd) as [Hc1 Hc2].
  set (c := ceil_div n d) in *.
  pose proof (Z.div_mod (n * g) d ltac:(lia)) as Hdm.
  pose proof (Z.mod_pos_bound (n * g) d Hd) as HR.
  fold R in Hdm, HR.
  set (Q := n * g / d) in *.
  apply Z.even_spec in Hev. destruct Hev as [g' Hg'].
  assert (Hlow : (c - 1) * d * g + g <= n * g) by nia.
  assert (Hupp : n * g <= c * d * g) by nia.
  assert (K1 : (c - 1) * g < Q).
  { apply (Z.mul_lt_mono_pos_l d); lia. }
  assert (K2 : Q <= c * g).
  { apply (Z.mul_le_mono_pos_l _ _ d); lia. }
  assert (K3 : R <> 0 -> Q < c * g).
  { intros HR0. apply (Z.mul_lt_mono_pos_l d); lia. }
  assert (K4 : R = 0 -> Q <> (c - 1) * g + 1).
  { intros HR0 HQ. rewrite HR0, HQ in Hdm.
    assert (g * (n - (c - 1) * d) = d) by lia.
    assert (1 <= n - (c - 1) * d) by lia. nia. }
  unfold round_at.
  destruct (Z.ltb_spec Q (2 ^ 53)) as [Hsmall | Hbig].
  - destruct (Z.eqb_spec R 0) as [HR0 | HR0].
    + cbn [round_nearest_even]. lia.
    + specialize (K3 HR0).
      destruct (2 * R ?= d); cbn [round_nearest_even]; try destruct (Z.even Q); lia.
  - unfold half_loc.
    destruct (Z.odd Q) eqn:Hodd.
    + apply Z.odd_spec in Hodd. destruct Hodd as [j Hj].
      assert (Hhalf : Q / 2 = j).
      { symmetry. apply (Z.div_unique Q 2 j 1); lia. }
      rewrite Hhalf.
      destruct (Z.eqb_spec R 0) as [HR0 | HR0].
      * specialize (K4 HR0). cbn [round_nearest_even].
        destruct (Z.even j); lia.
      * specialize (K3 HR0). cbn [round_nearest_even]. lia.
    + assert (Heven : Z.even Q = true) by (rewrite <- Z.negb_odd, Hodd; reflexivity).
      apply Z.even_spec in Heven. destruct Heven as [j Hj].
      assert (Hhalf : Q / 2 = j).
      { symmetry. apply (Z.div_unique Q 2 j 0); lia. }
      rewrite Hhalf.
      destruct (Z.eqb_spec R 0) as [HR0 | HR0]; cbn [round_nearest_even]; lia.
Qed.

(** The page count computed through [float64] is the exact ceiling as
    long as both operands are below [2 ^ 53]. *)
Lemma ceil_quotient_exact (n d : Z) :
  0 <= n < 2 ^ 53 -> 0 < d < 2 ^ 53 ->
  ceil_quotient n d = ceil_div n d.
Proof.
  intros Hn Hd.
  destruct (of_int_exact d Hd) as (m2 & b & Hfd & Hb & Hm2 & Hm2b).
  unfold ceil_quotient. rewrite Hfd.
  destruct (Z.eq_dec n 0) as [-> | Hn0].
  - cbn. unfold ceil_div. symmetry. apply Z.div_small. lia.
  - destruct (of_int_exact n ltac:(lia)) as (m1 & a & Hfn & Ha & Hm1 & Hm1b).
    rewrite Hfn, SFdiv_canonical by lia.
    set (g := 2 ^ (53 + a - b)).
    assert (Hpb : 0 < 2 ^ b) by (apply Z.pow_pos_nonneg; lia).
    assert (Hg : 0 < g) by (apply Z.pow_pos_nonneg; lia).
    assert (Hscale : Z.pos m1 * 2 ^ 53 = n * g * 2 ^ b).
    { rewrite Hm1. subst g. rewrite <- !Z.mul_assoc, <- !Z.pow_add_r by lia.
      f_equal. f_equal. lia. }
    assert (HQ : Z.pos m1 * 2 ^ 53 / Z.pos m2 = n * g / d).
    { rewrite Hscale, Hm2. apply Z.div_mul_cancel_r; lia. }
    assert (HR : (Z.pos m1 * 2 ^ 53) mod Z.pos m2 = (n * g) mod d * 2 ^ b).
    { rewrite Hscale, Hm2. apply Z.mul_mod_distr_r; lia. }
    pose proof (Z.mod_pos_bound (n * g) d ltac:(lia)) as HRb.
    rewrite HQ, HR, new_location_spec by nia.
    set (R := (n * g) mod d) in *.
    replace (R * 2 ^ b =? 0) with (R =? 0)
      by (destruct (Z.eqb_spec R 0), (Z.eqb_spec (R * 2 ^ b) 0); try reflexivity; nia).
    replace (2 * (R * 2 ^ b) ?= Z.pos m2) with (2 * R ?= d)
      by (rewrite Hm2, Z.mul_assoc; apply Zmult_compare_compat_r; lia).
    assert (HQb : 2 ^ 52 <= n * g / d < 2 ^ 54).
    { rewrite <- HQ. split.
      - apply Z.div_le_lower_bound; lia.
      - apply Z.div_lt_upper_bound; lia. }
    destruct (bra_value false (n * g / d) (- a - - b - 53)
                (if R =? 0 then loc_Exact else loc_Inexact (2 * R ?= d)))
      as (mz & ez & Heq & Hmz & Hez & Hv); [lia | lia |].
    rewrite Heq, to_int_Ceil_finite by lia.
    assert (Hdg : d < g).
    { assert (d * 2 ^ b < 2 ^ 53) by lia.
      assert (2 ^ 53 <= g * 2 ^ b).
      { subst g. rewrite <- Z.pow_add_r by lia. apply Z.pow_le_mono_r; lia. }
      nia. }
    assert (Hgev : Z.even g = true).
    { subst g. replace (53 + a - b) with (Z.succ (52 + a - b)) by lia.
      rewrite Z.pow_succ_r by lia. apply Z.even_spec. eexists; reflexivity. }
    pose proof (round_quotient_bracket n d g ltac:(lia) ltac:(lia) Hdg Hgev) as Hbr.
    cbv zeta in Hbr. fold R in Hbr. rewrite <- Hv in Hbr.
    set (sh := ez - (- a - - b - 53)) in *.
    assert (Hsh : 0 < 2 ^ sh) by (apply Z.pow_pos_nonneg; lia).
    destruct (Z.leb_spec 0 ez) as [Hpos | Hneg].
    + assert (Hge : 2 ^ sh = 2 ^ ez * g).
      { subst sh g. rewrite <- Z.pow_add_r by lia. f_equal. lia. }
      rewrite Hge, Z.mul_assoc in Hbr.
      apply (scaled_sandwich _ _ g Hg Hbr).
    + assert (Hge : g = 2 ^ (- ez) * 2 ^ sh).
      { subst sh g. rewrite <- Z.pow_add_r by lia. f_equal. lia. }
      rewrite Hge, !Z.mul_assoc in Hbr.
      symmetry. apply ceil_div_unique; [apply Z.pow_pos_nonneg; lia|].
      apply (scaled_bracket _ _ _ (2 ^ sh) Hsh Hbr).
Qed.

(** ** Page sizes beyond the exact range *)

Lemma shr_1_m (mrs : shr_record) :
  0 <= shr_m mrs -> shr_m (shr_1 mrs) = shr_m mrs / 2.
Proof.
  destruct mrs as [m r s]. cbn [shr_m]. intros Hm.
  destruct m as [|[q|q|]|q]; try lia; cbn [shr_1 shr_m].
  - reflexivity.
  - rewrite Pos2Z.inj_xI. apply (Z.div_unique _ _ _ 1); lia.
  - rewrite Pos2Z.inj_xO. apply (Z.div_unique _ _ _ 0); lia.
  - reflexivity.
Qed.

Lemma iter_shr_1_m (q : positive) : forall mrs,
  0 <= shr_m mrs ->
  shr_m (iter_pos shr_1 q mrs) = shr_m mrs / 2 ^ Z.pos q.
Proof.
  assert (Hnn : forall m (k : positive), 0 <= m -> 0 <= m / 2 ^ Z.pos k).
  { intros m k Hm. apply Z.div_pos; [exact Hm|]. apply Z.pow_pos_nonneg; lia. }
  induction q as [q IH | q IH |]; intros mrs Hm; cbn [iter_pos].
  - assert (H1 : 0 <= shr_m (shr_1 mrs))
      by (rewrite shr_1_m by exact Hm; apply Z.div_pos; lia).
    assert (H2 : 0 <= shr_m (iter_pos shr_1 q (shr_1 mrs)))
      by (rewrite IH by exact H1; apply Hnn; exact H1).
    rewrite (IH _ H2), (IH _ H1), (shr_1_m _ Hm).
    rewrite !Z.div_div by (try apply Z.pow_pos_nonneg; lia).
    f_equal. rewrite (Pos2Z.inj_xI q).
    replace (2 * Z.pos q + 1) with (1 + Z.pos q + Z.pos q) by lia.
    rewrite !Z.pow_add_r by lia. lia.
  - assert (H2 : 0 <= shr_m (iter_pos shr_1 q mrs))
      by (rewrite IH by exact Hm; apply Hnn; exact Hm).
    rewrite (IH _ H2), (IH _ Hm).
    rewrite !Z.div_div by (try apply Z.pow_pos_nonneg; lia).
    f_equal. rewrite (Pos2Z.inj_xO q).
    replace (2 * Z.pos q) with (Z.pos q + Z.pos q) by lia.
    rewrite !Z.pow_add_r by lia. lia.
  - apply shr_1_m. exact Hm.
Qed.

(** Above [2 ^ 53] the conversion [float64(d)] rounds, but the result is
    still a normal number with a positive exponent. *)
Lemma of_int_large (d : Z) :
  2 ^ 53 <= d <= GoInt.int_max ->
  exists m e,
    Float64.of_int d = S754_finite false m e /\
    2 ^ 52 <= Z.pos m < 2 ^ 53 /\ 1 <= e <= 11.
Proof.
  unfold GoInt.int_max. intros Hd. destruct d as [|p|p]; try lia.
  pose proof (digits2_pos_bounds p) as [Blo Bhi].
  set (k := Z.pos (digits2_pos p)) in *.
  assert (Hk : 54 <= k <= 63).
  { split.
    - destruct (Z.le_gt_cases 54 k); [assumption|].
      assert (2 ^ k <= 2 ^ 53) by (apply Z.pow_le_mono_r; lia). lia.
    - destruct (Z.le_gt_cases k 63); [assumption|].
      assert (2 ^ 63 <= 2 ^ (k - 1)) by (apply Z.pow_le_mono_r; lia). lia. }
  unfold Float64.of_int, binary_normalize, binary_round, Float64.prec, Float64.emax.
  fold k. rewrite fexp64 by lia.
  unfold shl_align.
  destruct (k + 0 - 53 - 0) as [|q|q] eqn:Hq; try lia.
  unfold binary_round_aux.
  unfold shr_fexp at 1. cbn [Zdigits2]. fold k. rewrite fexp64 by lia.
  rewrite Z.sub_0_r.
  replace (k + 0 - 53) with (Z.pos q) by lia.
  cbn [shr shr_record_of_loc].
  set (mrs := iter_pos shr_1 q _).
  assert (Hm : shr_m mrs = Z.pos p / 2 ^ Z.pos q).
  { subst mrs. rewrite iter_shr_1_m; cbn [shr_m]; [reflexivity | lia]. }
  assert (Hmb : 2 ^ 52 <= shr_m mrs < 2 ^ 53).
  { rewrite Hm.
    assert (Hp2 : 0 < 2 ^ Z.pos q) by (apply Z.pow_pos_nonneg; lia).
    split.
    - apply Z.div_le_lower_bound; [lia|].
      rewrite <- Z.pow_add_r by lia.
      replace (Z.pos q + 52) with (k - 1) by lia. exact Blo.
    - apply Z.div_lt_upper_bound; [lia|].
      rewrite <- Z.pow_add_r by lia. replace (Z.pos q + 53) with k by lia. exact Bhi. }
  pose proof (round_nearest_even_bounds (shr_m mrs) (loc_of_shr_record mrs)) as Hr.
  set (mr := round_nearest_even (shr_m mrs) (loc_of_shr_record mrs)) in *.
  destruct (bra_tail false mr (0 + Z.pos q))
    as (mz & ez & Heq & Hb & Hez & Hv); [lia | lia |].
  exists mz, ez. rewrite Heq. repeat split; lia.
Qed.

Lemma round_at_upper (M : Z) (l : location) :
  0 <= M < 2 ^ 54 -> round_at M l <= 2 ^ 54.
Proof.
  intros HM. unfold round_at.
  destruct (Z.ltb_spec M (2 ^ 53)).
  - pose proof (round_nearest_even_bounds M l). lia.
  - pose proof (round_nearest_even_bounds (M / 2) (half_loc M l)).
    assert (M / 2 < 2 ^ 53) by (apply Z.div_lt_upper_bound; lia). lia.
Qed.

(** A page size of [2 ^ 53] or more exceeds every exactly converted item
    count: the quotient lies in (0, 1] and its ceiling is 1. *)
Lemma ceil_quotient_large_divisor (n d : Z) :
  0 < n < 2 ^ 53 -> 2 ^ 53 <= d <= GoInt.int_max ->
  ceil_quotient n d = 1.
Proof.
  intros Hn Hd.
  destruct (of_int_exact n Hn) as (m1 & a & Hfn & Ha & Hm1 & Hm1b).
  destruct (of_int_large d Hd) as (m2 & e2 & Hfd & Hm2b & He2).
  unfold ceil_quotient. rewrite Hfn, Hfd, SFdiv_canonical by lia.
  set (Q := Z.pos m1 * 2 ^ 53 / Z.pos m2).
  assert (HQb : 2 ^ 52 <= Q < 2 ^ 54).
  { subst Q. split.
    - apply Z.div_le_lower_bound; lia.
    - apply Z.div_lt_upper_bound; lia. }
  set (l := new_location _ _).
  destruct (bra_value false Q (- a - e2 - 53) l) as (mz & ez & Heq & Hmz & Hez & Hv);
    [lia | lia |].
  rewrite Heq, to_int_Ceil_finite by lia.
  destruct (Z.leb_spec 0 ez); [lia|].
  pose proof (round_at_upper Q l ltac:(lia)) as Hup.
  rewrite <- Hv in Hup.
  set (sh := ez - (- a - e2 - 53)) in *.
  assert (Hsh : 0 < 2 ^ sh) by (apply Z.pow_pos_nonneg; lia).
  assert (Ht : 0 < 2 ^ (- ez)) by (apply Z.pow_pos_nonneg; lia).
  assert (H54 : 2 ^ 54 <= 2 ^ (- ez) * 2 ^ sh).
  { rewrite <- Z.pow_add_r by lia. apply Z.pow_le_mono_r; lia. }
  assert (Hle : Z.pos mz <= 2 ^ (- ez)).
  { apply (Z.mul_le_mono_pos_r _ _ (2 ^ sh)); lia. }
  symmetry. apply (Z.div_unique _ _ 1 (Z.pos mz - 1)); lia.
Qed.

Lemma ceil_div_small_quotient (n d : Z) : 0 < n <= d -> ceil_div n d = 1.
Proof.
  intros H. symmetry. apply ceil_div_unique; lia.
Qed.

(** The page count is the exact ceiling for every item count below
    [2 ^ 53] and every positive page size. *)
Lemma ceil_quotient_ceil_div (n d : Z) :
  exact_int n -> 0 < d <= GoInt.int_max ->
  ceil_quotient n d = ceil_div n d.
Proof.
  intros Hn Hd. unfold exact_int in Hn.
  destruct (Z.lt_ge_cases d (2 ^ 53)) as [Hsmall | Hlarge].
  - apply ceil_quotient_exact; lia.
  - destruct (Z.eq_dec n 0) as [-> | Hn0].
    + destruct (of_int_large d ltac:(lia)) as (m2 & e2 & Hfd & _).
      unfold ceil_quotient. rewrite Hfd. cbn.
      unfold ceil_div. symmetry. apply Z.div_small. lia.
    + rewrite ceil_quotient_large_divisor, ceil_div_small_quotient by lia.
      reflexivity.
Qed.

(** ** The sign of the page count over the whole range of [int] *)

(** Every positive [int] converts to a normal number of 53 digits. *)
Lemma of_int_canonical (n : Z) :
  0 < n <= GoInt.int_max ->
  exists m e,
    Float64.of_int n = S754_finite false m e /\
    2 ^ 52 <= Z.pos m < 2 ^ 53 /\ -52 <= e <= 11.
Proof.
  intros Hn. destruct (Z.lt_ge_cases n (2 ^ 53)) as [Hsmall | Hlarge].
  - destruct (of_int_exact n ltac:(lia)) as (m & a & Heq & Ha & _ & Hm).
    exists m, (- a). repeat split; try assumption; lia.
  - destruct (of_int_large n ltac:(lia)) as (m & e & Heq & Hm & He).
    exists m, e. repeat split; try assumption; lia.
Qed.

Lemma div_of_int_canonical (n d : Z) :
  0 < n <= GoInt.int_max -> 0 < d <= GoInt.int_max ->
  exists mz ez,
    Float64.div (Float64.of_int n) (Float64.of_int d) = S754_finite false mz ez /\
    2 ^ 52 <= Z.pos mz < 2 ^ 53 /\ -116 <= ez <= 12.
Proof.
  intros Hn Hd.
  destruct (of_int_canonical n Hn) as (m1 & e1 & Hfn & Hm1 & He1).
  destruct (of_int_canonical d Hd) as (m2 & e2 & Hfd & Hm2 & He2).
  rewrite Hfn, Hfd, SFdiv_canonical by lia.
  set (Q := Z.pos m1 * 2 ^ 53 / Z.pos m2).
  assert (HQb : 2 ^ 52 <= Q < 2 ^ 54).
  { subst Q. split.
    - apply Z.div_le_lower_bound; lia.
    - apply Z.div_lt_upper_bound; lia. }
  set (l := new_location _ _).
  destruct (bra_value false Q (e1 - e2 - 53) l)
    as (mz & ez & Heq & Hmz & Hez & _); [lia | lia |].
  exists mz, ez. repeat split; try assumption; lia.
Qed.

(** [int(math.Ceil(x))] of a positive normal [x]: a value that is no [int]
    converts to the least [int]; any other result is not negative and
    stays below the largest [int]. *)
Lemma to_int_Ceil_sign (mz : positive) (ez : Z) :
  2 ^ 52 <= Z.pos mz < 2 ^ 53 -> -900 <= ez <= 800 ->
  let r := Float64.to_int (Float64.Ceil (S754_finite false mz ez)) in
  r = GoInt.int_min \/ 0 <= r < GoInt.int_max.
Proof.
  intros Hm He r. subst r.
  destruct (Z.le_gt_cases ez 0) as [Hle | Hgt].
  - right. rewrite to_int_Ceil_finite by lia. unfold GoInt.int_max.
    destruct (Z.leb_spec 0 ez).
    + replace ez with 0 by lia. rewrite Z.pow_0_r. lia.
    + assert (Ht : 2 <= 2 ^ (- ez)).
      { change 2 with (2 ^ 1) at 1. apply Z.pow_le_mono_r; lia. }
      split.
      * apply Z.div_pos; lia.
      * assert ((Z.pos mz + 2 ^ (- ez) - 1) / 2 ^ (- ez) < 2 ^ 53);
          [apply Z.div_lt_upper_bound; nia | lia].
  - assert (Hz : (0 <=? ez) = true) by (apply Z.leb_le; lia).
    unfold Float64.Ceil. rewrite Hz. unfold Float64.to_int. rewrite Hz.
    set (v := Z.pos mz * 2 ^ ez).
    destruct (Z.leb_spec GoInt.int_min v), (Z.leb_spec v GoInt.int_max); cbn [andb];
      try (left; reflexivity).
    right. unfold GoInt.int_min, GoInt.int_max in *.
    assert (Hev : v = 2 * (Z.pos mz * 2 ^ (ez - 1))).
    { subst v. replace ez with (Z.succ (ez - 1)) at 1 by lia.
      rewrite Z.pow_succ_r by lia. lia. }
    assert (Hnn : 0 <= v).
    { subst v. apply Z.mul_nonneg_nonneg; [lia | apply Z.pow_nonneg; lia]. }
    set (w := Z.pos mz * 2 ^ (ez - 1)) in *. clearbody v w. lia.
Qed.

Lemma ceil_quotient_sign (n d : Z) :
  0 <= n <= GoInt.int_max -> 0 < d <= GoInt.int_max ->
  ceil_quotient n d = GoInt.int_min \/ 0 <= ceil_quotient n d < GoInt.int_max.
Proof.
  intros Hn Hd. unfold ceil_quotient.
  destruct (Z.eq_dec n 0) as [-> | Hn0].
  - destruct (of_int_canonical d Hd) as (m2 & e2 & Hfd & _).
    rewrite Hfd. cbn. right. unfold GoInt.int_max. lia.
  - destruct (div_of_int_canonical n d ltac:(lia) Hd) as (mz & ez & Heq & Hmz & Hez).
    rewrite Heq. apply to_int_Ceil_sign; lia.
Qed.

(** * The page count and the current page *)

(** ** Machine integers and the page count *)

Lemma wrap_in_int (z : Z) : GoInt.in_int z -> GoInt.wrap z = z.
Proof.
  unfold GoInt.wrap. intros H. int_bounds.
  rewrite Z.mod_small by lia. lia.
Qed.

Lemma to_int_in_int (x : Float64.float64) : GoInt.in_int (Float64.to_int x).
Proof.
  assert (H0 : GoInt.in_int GoInt.int_min) by int_lia.
  assert (H1 : GoInt.in_int 0) by int_lia.
  destruct x as [s | s | | s m e]; cbn [Float64.to_int]; try assumption.
  set (v := if s then _ else _).
  destruct (Z.leb_spec GoInt.int_min v), (Z.leb_spec v GoInt.int_max); cbn [andb];
    try assumption.
  split; assumption.
Qed.

Lemma ceil_quotient_in_int (n d : Z) : GoInt.in_int (ceil_quotient n d).
Proof. apply to_int_in_int. Qed.

Lemma NumberOfPages_New (n d rp : Z) :
  NumberOfPages (New n d rp) = ceil_quotient n d.
Proof. reflexivity. Qed.

Lemma CurrentPage_New (n d rp : Z) :
  CurrentPage (New n d rp) =
  let cp := if rp =? 0 then 1 else rp in
  if cp >? ceil_quotient n d then ceil_quotient n d else cp.
Proof. reflexivity. Qed.

Lemma ceil_div_pos (n d : Z) : 0 < d -> 1 <= n -> 1 <= ceil_div n d.
Proof. intros Hd Hn. pose proof (ceil_div_spec n d Hd). nia. Qed.

Lemma ceil_quotient_range (n d : Z) :
  exact_int n -> 0 < d <= GoInt.int_max -> 0 <= ceil_quotient n d < 2 ^ 53.
Proof.
  intros Hn Hd. rewrite ceil_quotient_ceil_div by assumption.
  unfold exact_int in Hn.
  pose proof (ceil_div_spec n d ltac:(lia)). nia.
Qed.

(** ** Normalisation of the current page *)

(** Below [2 ^ 53] items the clamp of [New] is the clamp against the exact
    ceiling. *)
Lemma New_clamp (n perPage p : Z) :
  exact_int n -> 0 < perPage <= GoInt.int_max -> p <> 0 ->
  (p > ceil_div n perPage -> CurrentPage (New n perPage p) = ceil_div n perPage) /\
  (p <= ceil_div n perPage -> CurrentPage (New n perPage p) = p) /\
  0 <= ceil_div n perPage.
Proof.
  intros Hn Hd Hp.
  rewrite CurrentPage_New. cbv zeta.
  rewrite ceil_quotient_ceil_div by assumption.
  pose proof (ceil_div_spec n perPage ltac:(lia)) as Hs.
  assert (Hc : 0 <= ceil_div n perPage) by (unfold exact_int in Hn; nia).
  destruct (Z.eqb_spec p 0) as [|_]; [contradiction|].
  destruct (Z.gtb_spec p (ceil_div n perPage)); repeat split; intros; lia.
Qed.

(** With at least one item the current page of a requested page that is
    not negative lies within the pages. *)
Lemma New_current_page_bounds (n perPage requestedPage : Z) :
  exact_int n -> 1 <= n -> 0 < perPage <= GoInt.int_max -> 0 <= requestedPage ->
  1 <= CurrentPage (New n perPage requestedPage) <= ceil_div n perPage.
Proof.
  intros Hn Hn1 Hd Hrp. rewrite CurrentPage_New. cbv zeta.
  rewrite ceil_quotient_ceil_div by assumption.
  pose proof (ceil_div_pos n perPage ltac:(lia) Hn1) as Hc.
  destruct (Z.eqb_spec requestedPage 0) as [-> | Hne];
    match goal with |- context [?a >? ?b] => destruct (Z.gtb_spec a b) end; lia.
Qed.

(** With at least one item the zero sentinel selects the first page. *)
Lemma New_page_zero_is_first (n perPage : Z) :
  exact_int n -> 1 <= n -> 0 < perPage <= GoInt.int_max ->
  CurrentPage (New n perPage 0) = 1.
Proof.
  intros Hn Hn1 Hd. rewrite CurrentPage_New. cbv zeta.
  rewrite ceil_quotient_ceil_div by assumption.
  pose proof (ceil_div_pos n perPage ltac:(lia) Hn1) as Hc.
  change (0 =? 0) with true. cbv iota.
  destruct (Z.gtb_spec 1 (ceil_div n perPage)); lia.
Qed.

(** ** Page lists and the page stream *)

Lemma Zseq_length (lo : Z) (k : nat) : List.length (Zseq lo k) = k.
Proof.
  revert lo. induction k as [|k IH]; intros lo; cbn; [reflexivity|].
  now rewrite IH.
Qed.

Lemma Zseq_nth (k : nat) : forall (lo : Z) (j : nat),
  (j < k)%nat -> List.nth j (Zseq lo k) 0 = lo + Z.of_nat j.
Proof.
  induction k as [|k IH]; intros lo j Hj; [lia|].
  destruct j as [|j]; cbn [Zseq List.nth]; [lia|].
  rewrite IH by lia. lia.
Qed.

Lemma Zseq_lower (k : nat) : forall lo, Forall (fun x => lo <= x) (Zseq lo k).
Proof.
  induction k as [|k IH]; intros lo; cbn [Zseq]; constructor; [lia|].
  eapply Forall_impl; [|apply IH]. cbv beta. intros; lia.
Qed.

Lemma Zseq_ascending (k : nat) : forall lo, StronglySorted Z.lt (Zseq lo k).
Proof.
  induction k as [|k IH]; intros lo; cbn [Zseq]; constructor; [apply IH|].
  eapply Forall_impl; [|apply (Zseq_lower k (lo + 1))]. cbv beta. intros; lia.
Qed.

Section Loops.

Variable p : Paginator.
Hypothesis Hmax : NumberOfPages p < GoInt.int_max.

Lemma add_one (i : Z) : 1 <= i <= NumberOfPages p -> GoInt.add i 1 = i + 1.
Proof using Hmax.
  intros Hi. unfold GoInt.add. apply wrap_in_int. int_lia.
Qed.

Lemma Pages_loop_run (k : nat) : forall (fuel : nat) (i : Z) (s : list Z),
  1 <= i -> i + Z.of_nat k = NumberOfPages p + 1 -> (k < fuel)%nat ->
  Pages_loop fuel p i s = Some (s ++ Zseq i k).
Proof using Hmax.
  induction k as [|k IH]; intros fuel i s Hi Hk Hf;
    (destruct fuel as [|fuel]; [lia|]); cbn [Pages_loop Zseq].
  - destruct (Z.leb_spec i (NumberOfPages p)); [lia|]. now rewrite app_nil_r.
  - destruct (Z.leb_spec i (NumberOfPages p)); [|lia].
    rewrite add_one by lia. rewrite IH by lia.
    now rewrite <- app_assoc.
Qed.

Lemma producer_at_sending (i : Z) :
  i <= NumberOfPages p -> producer_at p i = Sending i.
Proof.
  intros Hi. unfold producer_at.
  destruct (Z.leb_spec i (NumberOfPages p)); [reflexivity | lia].
Qed.

Lemma producer_at_exited (i : Z) :
  NumberOfPages p < i -> producer_at p i = Exited.
Proof.
  intros Hi. unfold producer_at.
  destruct (Z.leb_spec i (NumberOfPages p)); [lia | reflexivity].
Qed.

Lemma range_stream_run (k : nat) : forall (fuel : nat) (i : Z) (acc : list Z),
  1 <= i -> i + Z.of_nat k = NumberOfPages p + 1 -> (k < fuel)%nat ->
  range_stream fuel p (producer_at p i) acc = Some (acc ++ Zseq i k, Exited).
Proof using Hmax.
  induction k as [|k IH]; intros fuel i acc Hi Hk Hf;
    (destruct fuel as [|fuel]; [lia|]); cbn [range_stream Zseq].
  - rewrite producer_at_exited by lia. cbn [receive]. now rewrite app_nil_r.
  - rewrite producer_at_sending by lia. cbn [receive].
    rewrite add_one by lia. rewrite IH by lia.
    now rewrite <- app_assoc.
Qed.

Lemma take_stream_exited (k : nat) (acc : list Z) :
  take_stream k p Exited acc = (acc, Exited).
Proof. destruct k; reflexivity. Qed.

Lemma take_stream_partial (k : nat) : forall (i : Z) (acc : list Z),
  1 <= i -> i + Z.of_nat k <= NumberOfPages p + 1 ->
  take_stream k p (producer_at p i) acc =
  (acc ++ Zseq i k, producer_at p (i + Z.of_nat k)).
Proof using Hmax.
  induction k as [|k IH]; intros i acc Hi Hk; cbn [take_stream Zseq].
  - rewrite app_nil_r. do 2 f_equal. lia.
  - rewrite producer_at_sending by lia. cbn [receive].
    rewrite add_one by lia. rewrite IH by lia.
    rewrite <- app_assoc. do 2 f_equal. lia.
Qed.

Lemma take_stream_exhaust (k : nat) : forall (i : Z) (acc : list Z),
  1 <= i <= NumberOfPages p + 1 -> NumberOfPages p + 1 <= i + Z.of_nat k ->
  take_stream k p (producer_at p i) acc =
  (acc ++ Zseq i (Z.to_nat (NumberOfPages p + 1 - i)), Exited).
Proof using Hmax.
  induction k as [|k IH]; intros i acc Hi Hk.
  - replace (NumberOfPages p + 1 - i) with 0 by lia.
    cbn [take_stream Z.to_nat Zseq]. rewrite app_nil_r, producer_at_exited by lia.
    reflexivity.
  - destruct (Z.le_gt_cases i (NumberOfPages p)) as [Hle | Hgt].
    + cbn [take_stream]. rewrite producer_at_sending by lia. cbn [receive].
      rewrite add_one by lia. rewrite IH by lia.
      replace (Z.to_nat (NumberOfPages p + 1 - i))
        with (S (Z.to_nat (NumberOfPages p + 1 - (i + 1)))) by lia.
      cbn [Zseq]. now rewrite <- app_assoc.
    + replace (NumberOfPages p + 1 - i) with 0 by lia.
      cbn [take_stream Z.to_nat Zseq]. rewrite producer_at_exited by lia.
      cbn [receive]. now rewrite app_nil_r.
Qed.

End Loops.

(** [Pages] returns the run of pages when the page count passes the
    capacity check of [makeslice], and panics when it does not. *)
Lemma makeslice_cap_ok_spec (cap : Z) :
  runtime.makeslice_cap_ok cap = true <-> 0 <= cap <= 2 ^ 45.
Proof.
  unfold runtime.makeslice_cap_ok, runtime.int_size, runtime.maxAlloc.
  rewrite andb_true_iff, Z.leb_le, Z.leb_le. lia.
Qed.

Lemma Pages_returns (p : Paginator) (fuel : nat) :
  0 <= NumberOfPages p <= 2 ^ 45 -> (Z.to_nat (NumberOfPages p) < fuel)%nat ->
  Pages fuel p = Some (Returned (Zseq 1 (Z.to_nat (NumberOfPages p)))).
Proof.
  intros HN Hf. unfold Pages.
  rewrite (proj2 (makeslice_cap_ok_spec _) HN).
  assert (Hmax : NumberOfPages p < GoInt.int_max) by int_lia.
  rewrite (Pages_loop_run p Hmax (Z.to_nat (NumberOfPages p))) by lia.
  reflexivity.
Qed.

Lemma Pages_panics (p : Paginator) (fuel : nat) :
  NumberOfPages p < 0 \/ 2 ^ 45 < NumberOfPages p ->
  Pages fuel p = Some (Panicked "makeslice: cap out of range").
Proof.
  intros HN. unfold Pages.
  destruct (runtime.makeslice_cap_ok (NumberOfPages p)) eqn:Hok; [|reflexivity].
  apply makeslice_cap_ok_spec in Hok. lia.
Qed.

(** ** The copy loop of [interfaceSlice] *)




(** ** [strconv.Atoi] *)

Lemma digit_range (c : ascii) (d : Z) : strconv.digit c = Some d -> 0 <= d <= 9.
Proof.
  unfold strconv.digit.
  destruct (Z.leb_spec 48 (Z.of_N (N_of_ascii c))) as [Hlo|Hlo],
           (Z.leb_spec (Z.of_N (N_of_ascii c)) 57) as [Hhi|Hhi];
    cbn [andb]; intros Heq; inversion Heq; lia.
Qed.

Lemma decimal_value_ge (s : string) : forall acc, 0 <= acc -> acc <= decimal_value s acc.
Proof.
  induction s as [|c s IH]; intros acc Hacc; cbn [decimal_value]; [lia|].
  destruct (strconv.digit c) as [d|] eqn:Hd; [|lia].
  apply digit_range in Hd.
  specialize (IH (acc * 10 + d) ltac:(lia)). lia.
Qed.

Lemma ParseUint_loop_decimal (s : string) : forall n,
  all_digits s = true -> 0 <= n -> decimal_value s n <= strconv.maxUint64 ->
  strconv.ParseUint_loop s n = (decimal_value s n, None).
Proof.
  induction s as [|c s IH]; intros n Hall Hn Hv;
    cbn [strconv.ParseUint_loop decimal_value all_digits] in *; [reflexivity|].
  destruct (strconv.digit c) as [d|] eqn:Hd; [|discriminate Hall].
  pose proof (digit_range c d Hd) as Hdr.
  pose proof (decimal_value_ge s (n * 10 + d) ltac:(lia)) as Hge.
  unfold strconv.maxUint64 in *.
  destruct (Z.geb_spec n ((2 ^ 64 - 1) / 10 + 1)) as [Hbig|_].
  { exfalso. change ((2 ^ 64 - 1) / 10 + 1) with 1844674407370955162 in Hbig. lia. }
  destruct (Z.gtb_spec (n * 10 + d) (2 ^ 64 - 1)); [lia|].
  apply IH; [exact Hall | lia | exact Hv].
Qed.

Lemma Atoi_decimal (s : string) :
  all_digits s = true -> s <> ""%string -> decimal_value s 0 <= GoInt.int_max ->
  strconv.Atoi s = (decimal_value s 0, None).
Proof.
  intros Hall Hne Hv. unfold strconv.Atoi, strconv.ParseInt.
  destruct s as [|c rest]; [contradiction|].
  assert (Hsign : (Ascii.eqb c "+" || Ascii.eqb c "-")%bool = false /\ Ascii.eqb c "-" = false).
  { cbn [all_digits] in Hall.
    destruct (Ascii.eqb_spec c "+") as [->|]; [discriminate Hall|].
    destruct (Ascii.eqb_spec c "-") as [->|]; [discriminate Hall|]. split; reflexivity. }
  destruct Hsign as [Hs1 Hs2]. rewrite Hs1, Hs2.
  unfold strconv.ParseUint.
  rewrite ParseUint_loop_decimal;
    [ | exact Hall | lia | unfold GoInt.int_max, strconv.maxUint64 in *; lia ].
  cbn [negb andb].
  unfold GoInt.int_max in Hv.
  destruct (Z.geb_spec (decimal_value (String c rest) 0) (2 ^ 63)); [lia|].
  reflexivity.
Qed.

(** [ParseUint] by the shape of its argument: the number spelled by the
    leading digits decides a range error before any later byte is read;
    short of that a byte that is no digit is a syntax error. *)
Lemma ParseUint_loop_shape (s : string) : forall n,
  0 <= n <= strconv.maxUint64 ->
  strconv.ParseUint_loop s n =
  if decimal_value s n >? strconv.maxUint64 then (strconv.maxUint64, Some strconv.ErrRange)
  else if all_digits s then (decimal_value s n, None)
  else (0, Some strconv.ErrSyntax).
Proof.
  induction s as [|c s IH]; intros n Hn;
    cbn [strconv.ParseUint_loop decimal_value all_digits].
  - destruct (Z.gtb_spec n strconv.maxUint64); [lia | reflexivity].
  - destruct (strconv.digit c) as [d|] eqn:Hd.
    + pose proof (digit_range c d Hd) as Hdr.
      pose proof (decimal_value_ge s (n * 10 + d) ltac:(lia)) as Hge.
      unfold strconv.maxUint64 in *.
      change ((2 ^ 64 - 1) / 10 + 1) with 1844674407370955162.
      destruct (Z.geb_spec n 1844674407370955162) as [Hbig|Hsmall].
      { destruct (Z.gtb_spec (decimal_value s (n * 10 + d)) (2 ^ 64 - 1)); [reflexivity | lia]. }
      destruct (Z.gtb_spec (n * 10 + d) (2 ^ 64 - 1)) as [Hov|Hin].
      { destruct (Z.gtb_spec (decimal_value s (n * 10 + d)) (2 ^ 64 - 1)); [reflexivity | lia]. }
      apply IH. lia.
    + destruct (Z.gtb_spec n strconv.maxUint64); [lia | reflexivity].
Qed.

(** [Atoi] by the shape of its argument, split into sign and body. *)
Lemma Atoi_by_shape (s : string) :
  let neg := fst (sign_and_digits s) in
  let body := snd (sign_and_digits s) in
  let v := decimal_value body 0 in
  strconv.Atoi s =
  if String.eqb body "" then (0, Some strconv.ErrSyntax)
  else if v >? strconv.maxUint64
  then (if neg then GoInt.int_min else GoInt.int_max, Some strconv.ErrRange)
  else if negb (all_digits body) then (0, Some strconv.ErrSyntax)
  else if negb neg && (v >? GoInt.int_max) then (GoInt.int_max, Some strconv.ErrRange)
  else if neg && (v >? - GoInt.int_min) then (GoInt.int_min, Some strconv.ErrRange)
  else (if neg then - v else v, None).
Proof.
  unfold strconv.Atoi, strconv.ParseInt, sign_and_digits.
  destruct s as [|c rest]; [reflexivity|].
  assert (Hshape : forall (neg : bool) (body : string),
    match strconv.ParseUint body with
    | (_, Some strconv.ErrSyntax) => (0, Some strconv.ErrSyntax)
    | (un, _) =>
        if negb neg && (un >=? 2 ^ 63) then (2 ^ 63 - 1, Some strconv.ErrRange)
        else if neg && (un >? 2 ^ 63) then (- 2 ^ 63, Some strconv.ErrRange)
        else (if neg then - un else un, None)
    end =
    if String.eqb body "" then (0, Some strconv.ErrSyntax)
    else if decimal_value body 0 >? strconv.maxUint64
    then (if neg then GoInt.int_min else GoInt.int_max, Some strconv.ErrRange)
    else if negb (all_digits body) then (0, Some strconv.ErrSyntax)
    else if negb neg && (decimal_value body 0 >? GoInt.int_max)
    then (GoInt.int_max, Some strconv.ErrRange)
    else if neg && (decimal_value body 0 >? - GoInt.int_min)
    then (GoInt.int_min, Some strconv.ErrRange)
    else (if neg then - decimal_value body 0 else decimal_value body 0, None)).
  { intros neg body. destruct body as [|b body]; [reflexivity|].
    cbn [String.eqb]. unfold strconv.ParseUint.
    rewrite ParseUint_loop_shape by (unfold strconv.maxUint64; lia).
    set (v := decimal_value (String b body) 0).
    unfold strconv.maxUint64, GoInt.int_min, GoInt.int_max.
    destruct (Z.gtb_spec v (2 ^ 64 - 1)) as [Hov|Hin].
    - destruct neg; cbn [negb andb].
      + destruct (Z.gtb_spec (2 ^ 64 - 1) (2 ^ 63)); [reflexivity | lia].
      + destruct (Z.geb_spec (2 ^ 64 - 1) (2 ^ 63)); [reflexivity | lia].
    - destruct (all_digits (String b body)); cbn [negb]; [|reflexivity].
      destruct neg; cbn [negb andb].
      + rewrite Z.opp_involutive.
        destruct (Z.gtb_spec v (2 ^ 63)); reflexivity.
      + destruct (Z.geb_spec v (2 ^ 63)), (Z.gtb_spec v (2 ^ 63 - 1));
          try lia; reflexivity. }
  destruct (Ascii.eqb c "-") eqn:Hm.
  - rewrite orb_true_r. apply (Hshape true rest).
  - rewrite orb_false_r. destruct (Ascii.eqb c "+") eqn:Hp.
    + apply (Hshape false rest).
    + apply (Hshape false (String c rest)).
Qed.

(** [Atoi] on numerals, on strings that are no numerals, and at the ends
    of [int] and of [uint64]. *)
Example Atoi_examples :
  strconv.Atoi "" = (0, Some strconv.ErrSyntax) /\
  strconv.Atoi "7" = (7, None) /\
  strconv.Atoi "+7" = (7, None) /\
  strconv.Atoi "-7" = (-7, None) /\
  strconv.Atoi "007" = (7, None) /\
  strconv.Atoi "-" = (0, Some strconv.ErrSyntax) /\
  strconv.Atoi "4abc" = (0, Some strconv.ErrSyntax) /\
  strconv.Atoi " 7" = (0, Some strconv.ErrSyntax) /\
  strconv.Atoi "1_000" = (0, Some strconv.ErrSyntax) /\
  strconv.Atoi "+-7" = (0, Some strconv.ErrSyntax) /\
  strconv.Atoi "9223372036854775807" = (9223372036854775807, None) /\
  strconv.Atoi "9223372036854775808" = (9223372036854775807, Some strconv.ErrRange) /\
  strconv.Atoi "-9223372036854775808" = (-9223372036854775808, None) /\
  strconv.Atoi "-9223372036854775809" = (-9223372036854775808, Some strconv.ErrRange) /\
  strconv.Atoi "9223372036854775808x" = (0, Some strconv.ErrSyntax) /\
  strconv.Atoi "18446744073709551615x" = (0, Some strconv.ErrSyntax) /\
  strconv.Atoi "18446744073709551616x" = (9223372036854775807, Some strconv.ErrRange) /\
  strconv.Atoi "99999999999999999999999x" = (9223372036854775807, Some strconv.ErrRange) /\
  strconv.Atoi "-99999999999999999999999x" = (-9223372036854775808, Some strconv.ErrRange).
Proof. vm_compute. repeat split; reflexivity. Qed.

Lemma Values_Get_missing (v : gmap string (list string)) (key : string) :
  v !! key = None -> Values_Get v key = ""%string.
Proof. intros H. unfold Values_Get. now rewrite H. Qed.

(** * The tests of the package

    The embedding evaluates to what the package's own tests expect. *)

Example Test_CurrentPageNormalization :
  CurrentPage (New 10 2 0) = 1 /\
  CurrentPage (New 10 2 7) = 5 /\
  CurrentPage (New 73 25 2) = 2.
Proof. vm_compute. repeat split; reflexivity. Qed.

Example Test_ToPagination :
  Pagination.CurrentPage (ToPagination (New 10 2 0)) = 1 /\
  Pagination.NumberOfItems (ToPagination (New 10 2 0)) = 10 /\
  Pagination.ItemsPerPage (ToPagination (New 10 2 0)) = 2 /\
  Pagination.Offset (ToPagination (New 10 2 0)) = 0.
Proof. vm_compute. repeat split; reflexivity. Qed.

Example Test_CurrentPageNormalizationWithRequest :
  CurrentPage (NewFromRequest 10 2 (mkRequest (mkURL ∅))) = 1 /\
  CurrentPage (NewFromRequest 10 2
    (mkRequest (mkURL {[ "page"%string := ["7"%string] ]}))) = 5 /\
  CurrentPage (NewFromRequest 73 25
    (mkRequest (mkURL {[ "page"%string := ["2"%string] ]}))) = 2.
Proof. vm_compute. repeat split; reflexivity. Qed.

Example Test_Offset :
  Offset (New 28 25 2) = 25 /\ Offset (New 10 3 1) = 0 /\ Offset (New 10 3 4) = 9.
Proof. vm_compute. repeat split; reflexivity. Qed.

Example Test_NumberOfPages :
  NumberOfPages (New 28 25 2) = 2 /\
  NumberOfPages (New 10 3 1) = 4 /\
  NumberOfPages (New 10 25 1) = 1.
Proof. vm_compute. repeat split; reflexivity. Qed.

Example Test_PreviousPage :
  PreviousPage (New 28 25 2) = 1 /\
  PreviousPage (New 10 3 1) = 1 /\
  PreviousPage (New 101 25 5) = 4.
Proof. vm_compute. repeat split; reflexivity. Qed.

Example Test_NextPage :
  NextPage (New 28 25 2) = 2 /\
  NextPage (New 10 3 1) = 2 /\
  NextPage (New 101 25 5) = 5.
Proof. vm_compute. repeat split; reflexivity. Qed.

Example Test_IsCurrentPage :
  IsCurrentPage (New 28 25 2) 2 = true /\
  IsCurrentPage (New 10 3 1) 2 = false /\
  IsCurrentPage (New 10 3 1) 200 = false.
Proof. vm_compute. repeat split; reflexivity. Qed.

Example Test_Pages :
  Pages 3 (New 28 25 2) = Some (Returned [1; 2]) /\
  Pages 5 (New 10 3 1) = Some (Returned [1; 2; 3; 4]) /\
  Pages 2 (New 10 25 1) = Some (Returned [1]).
Proof. vm_compute. repeat split; reflexivity. Qed.

Example Test_PagesStream :
  range_stream 3 (New 28 25 2) (PagesStream (New 28 25 2)) []
  = Some ([1; 2], Exited).
Proof. vm_compute. reflexivity. Qed.

Example Test_Show :
  Show (New 28 25 2) = true /\ Show (New 10 25 1) = false.
Proof. vm_compute. repeat split; reflexivity. Qed.

(** * The properties of the specification *)

(** ** C1: the page count *)

(** With no items the page count is 0, not at least 1; and above
    [2 ^ 53] the conversion to [float64] rounds the item count, so that
    9007199254740993 items on pages of one item count as
    9007199254740992 pages. *)
Lemma C1_zero_items_zero_pages :
  (0 <= 0 /\ 0 < 5 /\ ~ (1 <= NumberOfPages (New 0 5 1))) /\
  (0 <= 9007199254740993 /\ 0 < 1 /\
   NumberOfPages (New 9007199254740993 1 1) <> ceil_div 9007199254740993 1).
Proof.
  assert (H : NumberOfPages (New 0 5 1) = 0) by (vm_compute; reflexivity).
  assert (H' : NumberOfPages (New 9007199254740993 1 1) = 9007199254740992)
    by (vm_compute; reflexivity).
  assert (Hc : ceil_div 9007199254740993 1 = 9007199254740993)
    by (vm_compute; reflexivity).
  rewrite H, H', Hc. lia.
Qed.

(** C1, amended.  For an item count [n] below [2 ^ 53] and a positive page
    size, [NumberOfPages] of the paginator built from
    [(n, perPage, requestedPage)], whatever the requested page, is the
    ceiling of [n / perPage]: the least [N] with [n <= N * perPage].  It
    is at least 1 exactly when there is at least one item; for an empty
    collection it is 0. *)
Theorem C1_number_of_pages (n perPage requestedPage : Z) :
  exact_int n -> 0 < perPage <= GoInt.int_max ->
  let N := NumberOfPages (New n perPage requestedPage) in
  N = ceil_div n perPage /\
  (N - 1) * perPage < n <= N * perPage /\
  (1 <= N <-> 1 <= n).
Proof.
  intros Hn Hd N. subst N. rewrite NumberOfPages_New.
  rewrite ceil_quotient_ceil_div by assumption.
  pose proof (ceil_div_spec n perPage ltac:(lia)) as Hs.
  split; [reflexivity|]. split; [exact Hs|].
  unfold exact_int in Hn. split; intros H; nia.
Qed.

Lemma C1_number_of_pages_witness :
  NumberOfPages (New 10 3 1) = ceil_div 10 3 /\
  (NumberOfPages (New 10 3 1) - 1) * 3 < 10 <= NumberOfPages (New 10 3 1) * 3 /\
  (1 <= NumberOfPages (New 10 3 1) <-> 1 <= 10).
Proof.
  apply (C1_number_of_pages 10 3 1); unfold exact_int, GoInt.int_max; lia.
Defined.

(** ** C2 and C3: the current page of an empty collection *)

(** C2.  [New] documents a current page normalised into the available
    pages and never below 1.  The clamp against the page count runs after
    the zero sentinel was replaced by 1 and has no lower bound: for an
    empty collection the constructed paginator reads page 0, outside
    [[1, max 1 (ceiling (0 / 5))]]. *)
Theorem C2_empty_collection_current_page :
  CurrentPage (New 0 5 0) = 0 /\
  ~ (1 <= CurrentPage (New 0 5 0) <= Z.max 1 (ceil_div 0 5)).
Proof.
  assert (H : CurrentPage (New 0 5 0) = 0) by (vm_compute; reflexivity).
  rewrite H. split; [reflexivity | lia].
Qed.

(** C3.  A requested page of 0 is meant to become page 1; for an empty
    collection [New 0 5 0] reads page 0 instead, and its offset is
    negative. *)
Theorem C3_page_zero_of_empty_collection :
  CurrentPage (New 0 5 0) <> 1 /\ Offset (New 0 5 0) = -5.
Proof.
  assert (H : CurrentPage (New 0 5 0) = 0) by (vm_compute; reflexivity).
  rewrite H. split; [lia | vm_compute; reflexivity].
Qed.

(** ** C4: clamping of the requested page *)

(** An item count above [2 ^ 53] is rounded by the conversion to
    [float64]: with 9007199254740993 items on pages of one item, the
    requested page 9007199254740993 is within the exact page count, yet
    the current page is 9007199254740992. *)
Lemma C4_large_count_rounds :
  0 <= 9007199254740993 /\ 0 < 1 /\ 9007199254740993 <> 0 /\
  1 <= 9007199254740993 <= ceil_div 9007199254740993 1 /\
  CurrentPage (New 9007199254740993 1 9007199254740993) <> 9007199254740993.
Proof.
  assert (H : CurrentPage (New 9007199254740993 1 9007199254740993)
              = 9007199254740992) by (vm_compute; reflexivity).
  assert (Hc : ceil_div 9007199254740993 1 = 9007199254740993)
    by (vm_compute; reflexivity).
  rewrite H, Hc. lia.
Qed.

(** C4, amended.  For an item count [n] below [2 ^ 53], a positive page
    size and a requested page [p <> 0], with [totalPages] the ceiling of
    [n / perPage]: a page above [totalPages] is replaced by [totalPages],
    a page within [[1, totalPages]] is kept, and a negative page is
    stored unchanged. *)
Theorem C4_clamp (n perPage p : Z) :
  exact_int n -> 0 < perPage <= GoInt.int_max -> p <> 0 ->
  let totalPages := ceil_div n perPage in
  (p > totalPages -> CurrentPage (New n perPage p) = totalPages) /\
  (1 <= p <= totalPages -> CurrentPage (New n perPage p) = p) /\
  (p < 0 -> CurrentPage (New n perPage p) = p).
Proof.
  intros Hn Hd Hp totalPages. subst totalPages.
  destruct (New_clamp n perPage p Hn Hd Hp) as (Hgt & Hle & Hnn).
  repeat split; intros H; [apply Hgt | apply Hle | apply Hle]; lia.
Qed.

Lemma C4_clamp_witness :
  CurrentPage (New 10 2 7) = ceil_div 10 2 /\ CurrentPage (New 73 25 2) = 2.
Proof.
  split.
  - destruct (C4_clamp 10 2 7) as (Hgt & _ & _);
      [unfold exact_int; lia | unfold GoInt.int_max; lia | lia |].
    apply Hgt. vm_compute. reflexivity.
  - destruct (C4_clamp 73 25 2) as (_ & Hin & _);
      [unfold exact_int; lia | unfold GoInt.int_max; lia | lia |].
    apply Hin. vm_compute. split; discriminate.
Defined.

(** ** C5: the page list and the page stream *)

(** With 9223372036854775807 items on pages of one item the quotient
    converts to [2 ^ 63], which is no [int]: the page count is the least
    [int], [Pages] panics on the negative capacity and the stream is
    closed without an emission.  With [2 ^ 46] items on pages of one item
    the page count is [2 ^ 46], exactly, and [Pages] panics on a capacity
    beyond the limit of the runtime. *)
Lemma C5_huge_count_panics :
  0 <= 9223372036854775807 /\ 0 < 1 /\
  NumberOfPages (New 9223372036854775807 1 1) = -9223372036854775808 /\
  Pages 1 (New 9223372036854775807 1 1)
  = Some (Panicked "makeslice: cap out of range") /\
  range_stream 1 (New 9223372036854775807 1 1)
    (PagesStream (New 9223372036854775807 1 1)) [] = Some ([], Exited) /\
  0 <= 70368744177664 /\
  NumberOfPages (New 70368744177664 1 1) = 70368744177664 /\
  Pages 1 (New 70368744177664 1 1)
  = Some (Panicked "makeslice: cap out of range").
Proof.
  split; [lia|]. split; [lia|].
  split; [vm_compute; reflexivity|]. split; [vm_compute; reflexivity|].
  split; [vm_compute; reflexivity|]. split; [lia|].
  split; vm_compute; reflexivity.
Qed.

(** C5, amended.  For a paginator built from an item count [n >= 0] and
    a positive page size whose [NumberOfPages] is not negative, as it is
    for every [n] below [2 ^ 53] (where it is at most [n]), a consumer
    ranging over [PagesStream] receives, before the channel is closed, the
    list of the pages: its length is [NumberOfPages], its element at index
    [j] is [1 + j], and it is strictly ascending.  [Pages] returns that
    same list when [NumberOfPages] is at most [2 ^ 45], the largest
    capacity [make([]int, 0, cap)] accepts, and panics in [make] when it
    is larger.  Both loops end within [NumberOfPages + 1] tests. *)
Theorem C5_pages_and_stream (n perPage requestedPage : Z) :
  0 <= n <= GoInt.int_max -> 0 < perPage <= GoInt.int_max ->
  let p := New n perPage requestedPage in
  let pages := Zseq 1 (Z.to_nat (NumberOfPages p)) in
  (exact_int n -> 0 <= NumberOfPages p <= n) /\
  (0 <= NumberOfPages p ->
   (forall fuel, (Z.to_nat (NumberOfPages p) < fuel)%nat ->
      range_stream fuel p (PagesStream p) [] = Some (pages, Exited) /\
      (NumberOfPages p <= 2 ^ 45 -> Pages fuel p = Some (Returned pages))) /\
   (2 ^ 45 < NumberOfPages p ->
      forall fuel, Pages fuel p = Some (Panicked "makeslice: cap out of range")) /\
   Z.of_nat (List.length pages) = NumberOfPages p /\
   (forall j, (j < List.length pages)%nat -> List.nth j pages 0 = 1 + Z.of_nat j) /\
   StronglySorted Z.lt pages).
Proof.
  intros Hn Hd p pages. split.
  - intros Hex. unfold p. rewrite NumberOfPages_New.
    rewrite ceil_quotient_ceil_div by assumption.
    unfold exact_int in Hex.
    pose proof (ceil_div_spec n perPage ltac:(lia)). nia.
  - intros HN.
    assert (Hmax : NumberOfPages p < GoInt.int_max).
    { destruct (ceil_quotient_sign n perPage Hn Hd) as [Hmin | Hpos].
      - change (ceil_quotient n perPage) with (NumberOfPages p) in Hmin.
        unfold GoInt.int_min in Hmin. lia.
      - apply Hpos. }
    subst pages. split; [|split; [|split; [|split]]].
    + intros fuel Hf. split.
      * unfold PagesStream.
        rewrite (range_stream_run p Hmax (Z.to_nat (NumberOfPages p))) by lia.
        reflexivity.
      * intros Hcap. apply Pages_returns; [lia | exact Hf].
    + intros Hcap fuel. apply Pages_panics. right. exact Hcap.
    + rewrite Zseq_length. lia.
    + intros j Hj. rewrite Zseq_length in Hj. apply Zseq_nth. exact Hj.
    + apply Zseq_ascending.
Qed.

Lemma C5_pages_and_stream_witness :
  (forall fuel, (Z.to_nat (NumberOfPages (New 10 3 1)) < fuel)%nat ->
     range_stream fuel (New 10 3 1) (PagesStream (New 10 3 1)) []
     = Some (Zseq 1 (Z.to_nat (NumberOfPages (New 10 3 1))), Exited) /\
     (NumberOfPages (New 10 3 1) <= 2 ^ 45 ->
      Pages fuel (New 10 3 1)
      = Some (Returned (Zseq 1 (Z.to_nat (NumberOfPages (New 10 3 1))))))) /\
  (2 ^ 45 < NumberOfPages (New 10 3 1) ->
     forall fuel, Pages fuel (New 10 3 1)
                  = Some (Panicked "makeslice: cap out of range")) /\
  Z.of_nat (List.length (Zseq 1 (Z.to_nat (NumberOfPages (New 10 3 1)))))
  = NumberOfPages (New 10 3 1) /\
  (forall j, (j < List.length (Zseq 1 (Z.to_nat (NumberOfPages (New 10 3 1)))))%nat ->
     List.nth j (Zseq 1 (Z.to_nat (NumberOfPages (New 10 3 1)))) 0 = 1 + Z.of_nat j) /\
  StronglySorted Z.lt (Zseq 1 (Z.to_nat (NumberOfPages (New 10 3 1)))).
Proof.
  destruct (C5_pages_and_stream 10 3 1) as [Hnn Hlist];
    [unfold GoInt.int_max; lia | unfold GoInt.int_max; lia |].
  apply Hlist, Hnn. unfold exact_int. lia.
Defined.

(** ** C6: neighbouring pages *)

(** C6.  For every paginator built by [New] from [int] arguments,
    [PreviousPage] is at least 1 and [NextPage] is at most
    [NumberOfPages]. *)
Theorem C6_previous_next_bounds (n perPage requestedPage : Z) :
  0 <= n -> 0 < perPage -> GoInt.in_int requestedPage ->
  1 <= PreviousPage (New n perPage requestedPage) /\
  NextPage (New n perPage requestedPage) <= NumberOfPages (New n perPage requestedPage).
Proof.
  intros _ _ Hrp.
  pose proof (ceil_quotient_in_int n perPage) as HN.
  assert (Hcp : GoInt.in_int (CurrentPage (New n perPage requestedPage))).
  { rewrite CurrentPage_New. cbv zeta.
    assert (GoInt.in_int 1) by int_lia.
    destruct (requestedPage =? 0);
      match goal with |- context [?a >? ?b] => destruct (a >? b) end; assumption. }
  unfold PreviousPage, NextPage. rewrite NumberOfPages_New.
  set (cp := CurrentPage (New n perPage requestedPage)) in *.
  set (N := ceil_quotient n perPage) in *.
  int_bounds. split.
  - destruct (Z.leb_spec cp 1); [lia|].
    unfold GoInt.sub. rewrite wrap_in_int; int_lia.
  - destruct (Z.geb_spec cp N); [lia|].
    unfold GoInt.add. rewrite wrap_in_int; int_lia.
Qed.

Lemma C6_previous_next_bounds_witness :
  1 <= PreviousPage (New 10 3 2) /\
  NextPage (New 10 3 2) <= NumberOfPages (New 10 3 2).
Proof.
  apply (C6_previous_next_bounds 10 3 2); int_lia.
Defined.

(** ** C7: the summary with data *)


(** ** C8: the page of a request *)

(** A [page] parameter spelling [2 ^ 63] does not parse as an [int]:
    [Atoi] reports a range error, but next to it returns the largest
    [int], not 0, and the paginator is on the last page, not the first.
    So does a parameter that is no numeral at all, when its leading
    digits spell a number above [2 ^ 64 - 1]. *)
Lemma C8_out_of_range_page :
  snd (strconv.Atoi "99999999999999999999999x") = Some strconv.ErrRange /\
  fst (strconv.Atoi "99999999999999999999999x") = 9223372036854775807 /\
  snd (strconv.Atoi "9223372036854775808") = Some strconv.ErrRange /\
  fst (strconv.Atoi "9223372036854775808") <> 0 /\
  NewFromRequest 10 2
    (mkRequest (mkURL {[ "page"%string := ["9223372036854775808"%string] ]}))
  <> New 10 2 0.
Proof.
  split; [vm_compute; reflexivity|]. split; [vm_compute; reflexivity|].
  split; [vm_compute; reflexivity|]. split.
  - assert (H : fst (strconv.Atoi "9223372036854775808") = 9223372036854775807)
      by (vm_compute; reflexivity).
    rewrite H. lia.
  - assert (H1 : NewFromRequest 10 2
             (mkRequest (mkURL {[ "page"%string := ["9223372036854775808"%string] ]}))
           = mkPaginator 2 10 5) by (vm_compute; reflexivity).
    assert (H2 : New 10 2 0 = mkPaginator 2 10 1) by (vm_compute; reflexivity).
    rewrite H1, H2. intros H. inversion H.
Qed.

(** C8, amended.  [NewFromRequest] has no error result and returns the
    paginator [New] builds from the number [q] that [Atoi] gives for the
    first [page] value of the query, the empty string when the parameter
    is missing.  Split the value into an optional sign and a body, and
    let [v] be the number the leading decimal digits of the body spell.
    [q] is 0 when the body is empty, and when the body holds a byte that
    is no digit while [v] is at most [2 ^ 64 - 1].  When the body is made
    of digits only, [q] is [v], or [- v] after a [-], if that is an
    [int], and else the largest [int], or the least after a [-].  When
    [v] is above [2 ^ 64 - 1], [q] is the largest [int], or the least
    after a [-], whatever follows the digits. *)
Theorem C8_new_from_request (n perPage : Z) (req : Request) :
  let s := Values_Get (Query (req_URL req)) "page" in
  let q := fst (strconv.Atoi s) in
  let neg := fst (sign_and_digits s) in
  let body := snd (sign_and_digits s) in
  let v := decimal_value body 0 in
  NewFromRequest n perPage req = New n perPage q /\
  (Query (req_URL req) !! "page"%string = None -> q = 0) /\
  (body = ""%string -> q = 0) /\
  (all_digits body = false -> v <= strconv.maxUint64 -> q = 0) /\
  (body <> ""%string -> all_digits body = true -> neg = false ->
     v <= GoInt.int_max -> q = v) /\
  (body <> ""%string -> all_digits body = true -> neg = true ->
     v <= - GoInt.int_min -> q = - v) /\
  (neg = false ->
     (all_digits body = true /\ GoInt.int_max < v) \/ strconv.maxUint64 < v ->
     q = GoInt.int_max) /\
  (neg = true ->
     (all_digits body = true /\ - GoInt.int_min < v) \/ strconv.maxUint64 < v ->
     q = GoInt.int_min).
Proof.
  intros s q neg body v.
  assert (Hnew : NewFromRequest n perPage req = New n perPage q).
  { unfold q, NewFromRequest. fold s. destruct (strconv.Atoi s) as [cp err]. reflexivity. }
  assert (Hmiss : Query (req_URL req) !! "page"%string = None -> q = 0).
  { intros Hnone. unfold q, s. rewrite Values_Get_missing by exact Hnone. reflexivity. }
  assert (Hq : q = fst (
    if String.eqb body "" then (0, Some strconv.ErrSyntax)
    else if v >? strconv.maxUint64
    then (if neg then GoInt.int_min else GoInt.int_max, Some strconv.ErrRange)
    else if negb (all_digits body) then (0, Some strconv.ErrSyntax)
    else if negb neg && (v >? GoInt.int_max) then (GoInt.int_max, Some strconv.ErrRange)
    else if neg && (v >? - GoInt.int_min) then (GoInt.int_min, Some strconv.ErrRange)
    else (if neg then - v else v, None))).
  { unfold q. rewrite (Atoi_by_shape s). reflexivity. }
  assert (Hv0 : body = ""%string -> v = 0) by (intros Hb; unfold v; rewrite Hb; reflexivity).
  assert (Hmx : GoInt.int_max < strconv.maxUint64 /\ - GoInt.int_min < strconv.maxUint64)
    by (unfold GoInt.int_max, GoInt.int_min, strconv.maxUint64; lia).
  clearbody q v neg body.
  split; [exact Hnew|]. split; [exact Hmiss|].
  split; [|split; [|split; [|split; [|split]]]].
  - intros Hb. rewrite Hq, Hb. reflexivity.
  - intros Hall Hv. rewrite Hq, Hall.
    destruct (String.eqb body ""); [reflexivity|].
    destruct (Z.gtb_spec v strconv.maxUint64); [lia | reflexivity].
  - intros Hb Hall Hneg Hv. rewrite Hq, Hall, Hneg.
    destruct (String.eqb_spec body ""); [contradiction|].
    destruct (Z.gtb_spec v strconv.maxUint64); [lia|]. cbn [negb andb].
    destruct (Z.gtb_spec v GoInt.int_max); [lia | reflexivity].
  - intros Hb Hall Hneg Hv. rewrite Hq, Hall, Hneg.
    destruct (String.eqb_spec body ""); [contradiction|].
    destruct (Z.gtb_spec v strconv.maxUint64); [lia|]. cbn [negb andb].
    destruct (Z.gtb_spec v (- GoInt.int_min)); [lia | reflexivity].
  - intros Hneg Hcase. rewrite Hq, Hneg.
    destruct (String.eqb_spec body "") as [Hb|Hb].
    { specialize (Hv0 Hb). unfold GoInt.int_max, strconv.maxUint64 in *. lia. }
    destruct (Z.gtb_spec v strconv.maxUint64) as [Hov|Hin]; [reflexivity|].
    destruct Hcase as [[Hall Hbig] | Hbig]; [|lia].
    rewrite Hall. cbn [negb andb].
    destruct (Z.gtb_spec v GoInt.int_max); [reflexivity | lia].
  - intros Hneg Hcase. rewrite Hq, Hneg.
    destruct (String.eqb_spec body "") as [Hb|Hb].
    { specialize (Hv0 Hb). unfold GoInt.int_min, strconv.maxUint64 in *. lia. }
    destruct (Z.gtb_spec v strconv.maxUint64) as [Hov|Hin]; [reflexivity|].
    destruct Hcase as [[Hall Hbig] | Hbig]; [|lia].
    rewrite Hall. cbn [negb andb].
    destruct (Z.gtb_spec v (- GoInt.int_min)); [reflexivity | lia].
Qed.

(** ** C9: a consumer that leaves early *)

(** Of five pages a consumer takes two and leaves: the goroutine is
    parked at the send of 3, and nothing but a receive moves it. *)
Lemma C9_producer_left_parked :
  take_stream 2 (New 10 2 1) (PagesStream (New 10 2 1)) []
  = ([1; 2], Sending 3) /\
  parked (snd (take_stream 2 (New 10 2 1) (PagesStream (New 10 2 1)) [])) = true /\
  2 < NumberOfPages (New 10 2 1).
Proof.
  assert (H : NumberOfPages (New 10 2 1) = 5) by (vm_compute; reflexivity).
  rewrite H. split; [vm_compute; reflexivity|]. split; [vm_compute; reflexivity | lia].
Qed.

(** C9, amended.  The goroutine of [PagesStream] returns only after every
    page was received: for a paginator built from an item count [n >= 0]
    and a positive page size, a consumer that leaves after [k] receives
    with [k < NumberOfPages] has received 1 to [k] and leaves the
    goroutine parked at the send of [k + 1]; with [k >= NumberOfPages] it
    has received every page and the goroutine has closed the channel and
    returned. *)
Theorem C9_stream_abandoned (n perPage requestedPage : Z) (k : nat) :
  0 <= n <= GoInt.int_max -> 0 < perPage <= GoInt.int_max ->
  let p := New n perPage requestedPage in
  (Z.of_nat k < NumberOfPages p ->
     take_stream k p (PagesStream p) []
     = (Zseq 1 k, Sending (Z.of_nat k + 1)) /\
     parked (snd (take_stream k p (PagesStream p) [])) = true) /\
  (NumberOfPages p <= Z.of_nat k ->
     take_stream k p (PagesStream p) []
     = (Zseq 1 (Z.to_nat (NumberOfPages p)), Exited)).
Proof.
  intros Hn Hd p.
  destruct (ceil_quotient_sign n perPage Hn Hd) as [Hmin | Hpos];
    change (ceil_quotient n perPage) with (NumberOfPages p) in *.
  - unfold GoInt.int_min in Hmin. split; intros Hk; [lia|].
    unfold PagesStream, producer_at.
    destruct (Z.leb_spec 1 (NumberOfPages p)); [lia|].
    rewrite take_stream_exited, Hmin. reflexivity.
  - assert (Hmax : NumberOfPages p < GoInt.int_max) by apply Hpos.
    unfold PagesStream. split; intros Hk.
    + rewrite (take_stream_partial p Hmax) by lia.
      rewrite producer_at_sending by lia. cbn [app snd parked].
      split; [|reflexivity]. do 2 f_equal. lia.
    + rewrite (take_stream_exhaust p Hmax) by lia. cbn [app].
      do 3 f_equal. lia.
Qed.

Lemma C9_stream_abandoned_witness :
  take_stream 2 (New 10 2 1) (PagesStream (New 10 2 1)) []
  = (Zseq 1 2, Sending (Z.of_nat 2 + 1)) /\
  parked (snd (take_stream 2 (New 10 2 1) (PagesStream (New 10 2 1)) [])) = true.
Proof.
  destruct (C9_stream_abandoned 10 2 1 2) as [Hearly _];
    [unfold GoInt.int_max; lia | unfold GoInt.int_max; lia |].
  apply Hearly. vm_compute. reflexivity.
Defined.

(** ** C10: negative pages *)

(** With pages of 4 items and the requested page [- 2 ^ 61] the product
    [(p - 1) * 4] leaves [int]: the offset wraps around to a positive
    number.  And with 9223372036854775807 items on pages of one item the
    page count is the least [int], below every other requested page: the
    page -1 is replaced by it. *)
Lemma C10_offset_wraps :
  (0 <= 10 /\ 0 < 4 /\ -2305843009213693952 < 0 /\
   CurrentPage (New 10 4 (-2305843009213693952)) = -2305843009213693952 /\
   Offset (New 10 4 (-2305843009213693952)) <> (-2305843009213693952 - 1) * 4 /\
   ~ (Offset (New 10 4 (-2305843009213693952)) < 0)) /\
  (0 <= 9223372036854775807 /\ 0 < 1 /\ -1 < 0 /\
   CurrentPage (New 9223372036854775807 1 (-1)) <> -1).
Proof.
  assert (H : Offset (New 10 4 (-2305843009213693952)) = 9223372036854775804)
    by (vm_compute; reflexivity).
  assert (Hc : CurrentPage (New 10 4 (-2305843009213693952)) = -2305843009213693952)
    by (vm_compute; reflexivity).
  assert (Hm : CurrentPage (New 9223372036854775807 1 (-1)) = -9223372036854775808)
    by (vm_compute; reflexivity).
  rewrite H, Hc, Hm. lia.
Qed.

(** C10, amended.  For an item count [n >= 0], a positive page size and a
    negative requested page [p] such that the product [(p - 1) * perPage]
    is not below the least [int] and the page count is not negative, as
    it is for every [n] below [2 ^ 53]: [New] stores [p] unchanged, and
    [Offset] is [(p - 1) * perPage], a negative number. *)
Theorem C10_negative_page (n perPage p : Z) :
  0 <= n -> 0 < perPage <= GoInt.int_max -> p < 0 ->
  GoInt.int_min <= (p - 1) * perPage ->
  (exact_int n -> 0 <= NumberOfPages (New n perPage p)) /\
  (0 <= NumberOfPages (New n perPage p) ->
   CurrentPage (New n perPage p) = p /\
   Offset (New n perPage p) = (p - 1) * perPage /\
   Offset (New n perPage p) < 0).
Proof.
  intros Hn Hd Hp Hov. split.
  - intros Hex. apply (ceil_quotient_range n perPage Hex Hd).
  - rewrite NumberOfPages_New. intros HN.
    assert (Hcp : CurrentPage (New n perPage p) = p).
    { rewrite CurrentPage_New. cbv zeta.
      destruct (Z.eqb_spec p 0) as [|_]; [lia|].
      destruct (Z.gtb_spec p (ceil_quotient n perPage)); [lia | reflexivity]. }
    unfold Offset. rewrite Hcp. unfold ItemsPerPage. cbn [New itemsPerPage].
    unfold GoInt.int_min in Hov.
    assert (Hp1 : - 2 ^ 63 <= p - 1) by nia.
    unfold GoInt.mul, GoInt.sub.
    rewrite (wrap_in_int (p - 1)) by int_lia.
    rewrite wrap_in_int by (int_bounds; nia).
    repeat split; nia.
Qed.

Lemma C10_negative_page_witness :
  CurrentPage (New 10 3 (-2)) = -2 /\
  Offset (New 10 3 (-2)) = (-2 - 1) * 3 /\
  Offset (New 10 3 (-2)) < 0.
Proof.
  destruct (C10_negative_page 10 3 (-2)) as [Hnn Hneg];
    [lia | unfold GoInt.int_max; lia | lia | unfold GoInt.int_min; lia |].
  apply Hneg, Hnn. unfold exact_int. lia.
Defined.

(** * Further properties of the package

    What the functions do together, at their edges and on degenerate
    arguments. *)

(** The offset of a stored page inside the pages is the plain product. *)
Lemma Offset_no_wrap (n perPage cp : Z) :
  exact_int n -> 0 < perPage <= GoInt.int_max ->
  1 <= cp <= ceil_div n perPage ->
  GoInt.mul (GoInt.sub cp 1) perPage = (cp - 1) * perPage /\
  0 <= (cp - 1) * perPage < n.
Proof.
  intros Hn Hd Hcp. unfold exact_int in Hn.
  pose proof (ceil_div_spec n perPage ltac:(lia)) as [Hlo Hhi].
  assert (Hb : 0 <= (cp - 1) * perPage < n) by nia.
  split; [|exact Hb].
  unfold GoInt.mul, GoInt.sub.
  assert (Hc : ceil_div n perPage <= n) by nia.
  rewrite (wrap_in_int (cp - 1)) by int_lia.
  apply wrap_in_int. int_lia.
Qed.

(** X1.  For a collection that is not empty (fewer than [2 ^ 53] items),
    a positive page size and a requested page that is not negative, the
    offset of the paginator [New] builds is the plain product
    [(CurrentPage - 1) * perPage], without wrap-around, and it is the
    index of an existing item: [0 <= Offset < n]. *)
Theorem X1_offset_in_collection (n perPage requestedPage : Z) :
  exact_int n -> 1 <= n -> 0 < perPage <= GoInt.int_max -> 0 <= requestedPage ->
  let p := New n perPage requestedPage in
  Offset p = (CurrentPage p - 1) * perPage /\ 0 <= Offset p < n.
Proof.
  intros Hn Hn1 Hd Hq p.
  pose proof (New_current_page_bounds n perPage requestedPage Hn Hn1 Hd Hq) as Hcp.
  fold p in Hcp.
  destruct (Offset_no_wrap n perPage (CurrentPage p) Hn Hd Hcp) as [Heq Hb].
  unfold Offset. change (ItemsPerPage p) with perPage.
  rewrite Heq. split; [reflexivity | exact Hb].
Qed.

Lemma X1_offset_in_collection_witness :
  Offset (New 10 3 4) = (CurrentPage (New 10 3 4) - 1) * 3 /\
  0 <= Offset (New 10 3 4) < 10.
Proof.
  apply (X1_offset_in_collection 10 3 4); unfold exact_int, GoInt.int_max; lia.
Defined.

(** X2.  Page [q] of the [ceil_div n perPage] pages starts at
    [(q - 1) * perPage], before the end of the collection, and its window
    of [perPage] items reaches the end of the collection exactly when it
    is the last page: the windows of the pages tile the collection. *)
Theorem X2_page_windows (n perPage q : Z) :
  exact_int n -> 0 < perPage <= GoInt.int_max -> 1 <= q <= ceil_div n perPage ->
  Offset (New n perPage q) = (q - 1) * perPage /\
  Offset (New n perPage q) < n /\
  (n <= Offset (New n perPage q) + perPage <-> q = ceil_div n perPage).
Proof.
  intros Hn Hd Hq.
  destruct (New_clamp n perPage q Hn Hd ltac:(lia)) as (_ & Hle & _).
  specialize (Hle ltac:(lia)).
  destruct (Offset_no_wrap n perPage q Hn Hd Hq) as [Heq Hb].
  unfold Offset. change (ItemsPerPage (New n perPage q)) with perPage.
  rewrite Hle, Heq.
  pose proof (ceil_div_spec n perPage ltac:(lia)) as [Hlo Hhi].
  split; [reflexivity|]. split; [lia|].
  split; intros H.
  - nia.
  - subst q. lia.
Qed.

Lemma X2_page_windows_witness :
  Offset (New 10 3 4) = (4 - 1) * 3 /\
  Offset (New 10 3 4) < 10 /\
  (10 <= Offset (New 10 3 4) + 3 <-> 4 = ceil_div 10 3).
Proof.
  apply (X2_page_windows 10 3 4); [unfold exact_int; lia | unfold GoInt.int_max; lia |].
  vm_compute. split; discriminate.
Defined.

(** X3.  A requested page beyond the last one gives the very paginator
    the last page gives. *)
Theorem X3_beyond_the_end_is_the_last_page (n perPage q : Z) :
  exact_int n -> 0 < perPage <= GoInt.int_max -> ceil_div n perPage < q ->
  New n perPage q = New n perPage (ceil_div n perPage).
Proof.
  intros Hn Hd Hq. unfold New.
  rewrite ceil_quotient_ceil_div by assumption.
  pose proof (ceil_div_spec n perPage ltac:(lia)) as Hs.
  assert (Hc : 0 <= ceil_div n perPage) by (unfold exact_int in Hn; nia).
  f_equal.
  destruct (Z.eqb_spec q 0) as [|_]; [lia|].
  destruct (Z.gtb_spec q (ceil_div n perPage)) as [_|]; [|lia].
  destruct (Z.eqb_spec (ceil_div n perPage) 0) as [H0|H0].
  - rewrite H0. reflexivity.
  - destruct (Z.gtb_spec (ceil_div n perPage) (ceil_div n perPage)); [lia | reflexivity].
Qed.

Lemma X3_beyond_the_end_is_the_last_page_witness :
  New 10 2 7 = New 10 2 (ceil_div 10 2).
Proof.
  apply (X3_beyond_the_end_is_the_last_page 10 2 7);
    [unfold exact_int; lia | unfold GoInt.int_max; lia | vm_compute; reflexivity].
Defined.

(** X4.  Normalisation is idempotent: building a paginator again from
    the current page of a paginator gives the same paginator, for every
    item count, page size and requested page, the degenerate ones
    included. *)
Theorem X4_normalisation_idempotent (n perPage q : Z) :
  New n perPage (CurrentPage (New n perPage q)) = New n perPage q.
Proof.
  unfold New, CurrentPage. cbn [currentPage]. f_equal.
  set (N := ceil_quotient n perPage).
  destruct (Z.eqb_spec q 0) as [Hq|Hq].
  - destruct (Z.gtb_spec 1 N) as [H1|H1].
    + destruct (Z.eqb_spec N 0) as [HN|HN].
      * destruct (Z.gtb_spec 1 N); lia.
      * destruct (Z.gtb_spec N N); lia.
    + change (1 =? 0) with false. cbv iota.
      destruct (Z.gtb_spec 1 N); lia.
  - destruct (Z.gtb_spec q N) as [H1|H1].
    + destruct (Z.eqb_spec N 0) as [HN|HN].
      * destruct (Z.gtb_spec 1 N); lia.
      * destruct (Z.gtb_spec N N); lia.
    + destruct (Z.eqb_spec q 0); [lia|].
      destruct (Z.gtb_spec q N); lia.
Qed.

(** What [New] stores and what its neighbours are, for a collection that
    is not empty and a requested page that is not negative. *)
Lemma New_neighbours (n perPage q : Z) :
  exact_int n -> 1 <= n -> 0 < perPage <= GoInt.int_max -> 0 <= q ->
  let p := New n perPage q in
  1 <= CurrentPage p <= ceil_div n perPage /\
  NumberOfPages p = ceil_div n perPage /\
  NextPage p = Z.min (CurrentPage p + 1) (ceil_div n perPage) /\
  PreviousPage p = Z.max (CurrentPage p - 1) 1.
Proof.
  intros Hn Hn1 Hd Hq p.
  pose proof (New_current_page_bounds n perPage q Hn Hn1 Hd Hq) as Hcp.
  fold p in Hcp.
  assert (HN : NumberOfPages p = ceil_div n perPage).
  { unfold p. rewrite NumberOfPages_New. apply ceil_quotient_ceil_div; assumption. }
  assert (Hc : ceil_div n perPage <= n).
  { pose proof (ceil_div_spec n perPage ltac:(lia)). unfold exact_int in Hn. nia. }
  unfold exact_int in Hn.
  split; [exact Hcp|]. split; [exact HN|]. split.
  - unfold NextPage. rewrite HN.
    destruct (Z.geb_spec (CurrentPage p) (ceil_div n perPage)); [lia|].
    unfold GoInt.add. rewrite wrap_in_int by int_lia. lia.
  - unfold PreviousPage.
    destruct (Z.leb_spec (CurrentPage p) 1); [lia|].
    unfold GoInt.sub. rewrite wrap_in_int by int_lia. lia.
Qed.

(** X5.  For a collection that is not empty and a requested page that is
    not negative, [NextPage] is the current page plus one capped at the
    page count, [PreviousPage] is the current page minus one floored at
    1, and both are pages [New] keeps as they are. *)
Theorem X5_neighbours_are_pages (n perPage q : Z) :
  exact_int n -> 1 <= n -> 0 < perPage <= GoInt.int_max -> 0 <= q ->
  let p := New n perPage q in
  NextPage p = Z.min (CurrentPage p + 1) (NumberOfPages p) /\
  PreviousPage p = Z.max (CurrentPage p - 1) 1 /\
  CurrentPage (New n perPage (NextPage p)) = NextPage p /\
  CurrentPage (New n perPage (PreviousPage p)) = PreviousPage p.
Proof.
  intros Hn Hn1 Hd Hq p.
  destruct (New_neighbours n perPage q Hn Hn1 Hd Hq) as (Hcp & HN & Hnext & Hprev).
  fold p in Hcp, HN, Hnext, Hprev.
  rewrite HN. split; [exact Hnext|]. split; [exact Hprev|]. split.
  - destruct (New_clamp n perPage (NextPage p) Hn Hd ltac:(lia)) as (_ & Hle & _).
    apply Hle. lia.
  - destruct (New_clamp n perPage (PreviousPage p) Hn Hd ltac:(lia)) as (_ & Hle & _).
    apply Hle. lia.
Qed.

Lemma X5_neighbours_are_pages_witness :
  NextPage (New 10 3 2) = Z.min (CurrentPage (New 10 3 2) + 1) (NumberOfPages (New 10 3 2)) /\
  PreviousPage (New 10 3 2) = Z.max (CurrentPage (New 10 3 2) - 1) 1 /\
  CurrentPage (New 10 3 (NextPage (New 10 3 2))) = NextPage (New 10 3 2) /\
  CurrentPage (New 10 3 (PreviousPage (New 10 3 2))) = PreviousPage (New 10 3 2).
Proof.
  apply (X5_neighbours_are_pages 10 3 2); unfold exact_int, GoInt.int_max; lia.
Defined.

(** X6.  Stepping to the next page and back, or to the previous page and
    forth, returns to the current page, unless the step was cut at the
    last or the first page. *)
Theorem X6_previous_undoes_next (n perPage q : Z) :
  exact_int n -> 1 <= n -> 0 < perPage <= GoInt.int_max -> 0 <= q ->
  let p := New n perPage q in
  (CurrentPage p < NumberOfPages p ->
   PreviousPage (New n perPage (NextPage p)) = CurrentPage p) /\
  (1 < CurrentPage p ->
   NextPage (New n perPage (PreviousPage p)) = CurrentPage p).
Proof.
  intros Hn Hn1 Hd Hq p.
  destruct (New_neighbours n perPage q Hn Hn1 Hd Hq) as (Hcp & HN & Hnext & Hprev).
  fold p in Hcp, HN, Hnext, Hprev.
  rewrite HN. split; intros Hstep.
  - destruct (New_neighbours n perPage (NextPage p) Hn Hn1 Hd ltac:(lia))
      as (_ & _ & _ & Hprev').
    destruct (New_clamp n perPage (NextPage p) Hn Hd ltac:(lia)) as (_ & Hle & _).
    rewrite Hprev', Hle by lia. lia.
  - destruct (New_neighbours n perPage (PreviousPage p) Hn Hn1 Hd ltac:(lia))
      as (_ & _ & Hnext' & _).
    destruct (New_clamp n perPage (PreviousPage p) Hn Hd ltac:(lia)) as (_ & Hle & _).
    rewrite Hnext', Hle by lia. lia.
Qed.

Lemma X6_previous_undoes_next_witness :
  PreviousPage (New 10 3 (NextPage (New 10 3 2))) = CurrentPage (New 10 3 2) /\
  NextPage (New 10 3 (PreviousPage (New 10 3 2))) = CurrentPage (New 10 3 2).
Proof.
  destruct (X6_previous_undoes_next 10 3 2) as [Hnext Hprev];
    [unfold exact_int; lia | lia | unfold GoInt.int_max; lia | lia |].
  split; [apply Hnext | apply Hprev]; vm_compute; reflexivity.
Defined.

(** X7.  [Show] is true exactly when the items do not fit one page:
    [perPage < n]. *)
Theorem X7_show_iff_more_than_a_page (n perPage q : Z) :
  exact_int n -> 0 < perPage <= GoInt.int_max ->
  Show (New n perPage q) = true <-> perPage < n.
Proof.
  intros Hn Hd. unfold Show. rewrite NumberOfPages_New.
  rewrite ceil_quotient_ceil_div by assumption.
  pose proof (ceil_div_spec n perPage ltac:(lia)) as Hs.
  destruct (Z.gtb_spec (ceil_div n perPage) 1) as [Hgt|Hle]; split; intros H;
    try discriminate H; try reflexivity; nia.
Qed.

Lemma X7_show_iff_more_than_a_page_witness :
  Show (New 28 25 2) = true <-> 25 < 28.
Proof.
  apply (X7_show_iff_more_than_a_page 28 25 2); unfold exact_int, GoInt.int_max; lia.
Defined.

Lemma filter_eqb_Zseq (c : Z) (k : nat) : forall lo,
  lo <= c < lo + Z.of_nat k ->
  List.filter (fun x => c =? x) (Zseq lo k) = [c].
Proof.
  assert (Hnone : forall k lo, c < lo -> List.filter (fun x => c =? x) (Zseq lo k) = []).
  { clear k. induction k as [|k IH]; intros lo Hlt; cbn [Zseq List.filter]; [reflexivity|].
    destruct (Z.eqb_spec c lo); [lia|]. apply IH. lia. }
  induction k as [|k IH]; intros lo Hc; [lia|].
  cbn [Zseq List.filter].
  destruct (Z.eqb_spec c lo) as [->|Hne].
  - rewrite Hnone by lia. reflexivity.
  - apply IH. lia.
Qed.

(** X8.  For a collection that is not empty, a requested page that is
    not negative and a page count of at most [2 ^ 45], the capacity
    [Pages] can allocate, exactly one entry of [Pages] satisfies
    [IsCurrentPage], and it is the current page. *)
Theorem X8_one_current_page_in_pages (n perPage q : Z) (fuel : nat) :
  exact_int n -> 1 <= n -> 0 < perPage <= GoInt.int_max -> 0 <= q ->
  let p := New n perPage q in
  NumberOfPages p <= 2 ^ 45 ->
  (Z.to_nat (NumberOfPages p) < fuel)%nat ->
  exists pages,
    Pages fuel p = Some (Returned pages) /\
    List.filter (IsCurrentPage p) pages = [CurrentPage p].
Proof.
  intros Hn Hn1 Hd Hq p Hcap Hf.
  destruct (New_neighbours n perPage q Hn Hn1 Hd Hq) as (Hcp & HN & _ & _).
  fold p in Hcp, HN.
  exists (Zseq 1 (Z.to_nat (NumberOfPages p))). split.
  - apply Pages_returns; [lia | exact Hf].
  - unfold IsCurrentPage. apply filter_eqb_Zseq. lia.
Qed.

Lemma X8_one_current_page_in_pages_witness :
  exists pages,
    Pages 5 (New 10 3 2) = Some (Returned pages) /\
    List.filter (IsCurrentPage (New 10 3 2)) pages = [CurrentPage (New 10 3 2)].
Proof.
  apply (X8_one_current_page_in_pages 10 3 2 5);
    [unfold exact_int; lia | lia | unfold GoInt.int_max; lia | lia | | ].
  - assert (H : NumberOfPages (New 10 3 2) = 4) by (vm_compute; reflexivity).
    rewrite H. lia.
  - vm_compute. lia.
Defined.

(** X9.  The summary [ToPagination] makes of such a paginator is
    ordered: [1 <= PreviousPage <= CurrentPage <= NextPage <= TotalPages],
    the neighbours are at most one page away, [Offset] is
    [(CurrentPage - 1) * ItemsPerPage] and indexes an existing item, and
    [Data] is empty. *)
Theorem X9_summary_is_ordered (n perPage q : Z) :
  exact_int n -> 1 <= n -> 0 < perPage <= GoInt.int_max -> 0 <= q ->
  let s := ToPagination (New n perPage q) in
  1 <= Pagination.PreviousPage s <= Pagination.CurrentPage s /\
  Pagination.CurrentPage s <= Pagination.NextPage s <= Pagination.TotalPages s /\
  Pagination.CurrentPage s - Pagination.PreviousPage s <= 1 /\
  Pagination.NextPage s - Pagination.CurrentPage s <= 1 /\
  Pagination.Offset s = (Pagination.CurrentPage s - 1) * Pagination.ItemsPerPage s /\
  0 <= Pagination.Offset s < Pagination.NumberOfItems s /\
  Pagination.Data s = [].
Proof.
  intros Hn Hn1 Hd Hq s. subst s. cbn [ToPagination Pagination.PreviousPage
    Pagination.CurrentPage Pagination.NextPage Pagination.TotalPages
    Pagination.Offset Pagination.ItemsPerPage Pagination.NumberOfItems Pagination.Data].
  destruct (New_neighbours n perPage q Hn Hn1 Hd Hq) as (Hcp & HN & Hnext & Hprev).
  destruct (Offset_no_wrap n perPage (CurrentPage (New n perPage q)) Hn Hd Hcp)
    as (Hoff & Hob).
  rewrite HN, Hnext, Hprev.
  change (ItemsPerPage (New n perPage q)) with perPage.
  change (NumberOfItems (New n perPage q)) with n.
  unfold Offset. change (ItemsPerPage (New n perPage q)) with perPage.
  rewrite Hoff. repeat split; lia.
Qed.

Lemma X9_summary_is_ordered_witness :
  1 <= Pagination.PreviousPage (ToPagination (New 10 3 2))
    <= Pagination.CurrentPage (ToPagination (New 10 3 2)) /\
  Pagination.CurrentPage (ToPagination (New 10 3 2))
    <= Pagination.NextPage (ToPagination (New 10 3 2))
    <= Pagination.TotalPages (ToPagination (New 10 3 2)) /\
  Pagination.CurrentPage (ToPagination (New 10 3 2))
    - Pagination.PreviousPage (ToPagination (New 10 3 2)) <= 1 /\
  Pagination.NextPage (ToPagination (New 10 3 2))
    - Pagination.CurrentPage (ToPagination (New 10 3 2)) <= 1 /\
  Pagination.Offset (ToPagination (New 10 3 2))
  = (Pagination.CurrentPage (ToPagination (New 10 3 2)) - 1)
    * Pagination.ItemsPerPage (ToPagination (New 10 3 2)) /\
  0 <= Pagination.Offset (ToPagination (New 10 3 2))
    < Pagination.NumberOfItems (ToPagination (New 10 3 2)) /\
  Pagination.Data (ToPagination (New 10 3 2)) = [].
Proof.
  apply (X9_summary_is_ordered 10 3 2); unfold exact_int, GoInt.int_max; lia.
Defined.

(** A quotient by the [float64] zero is an infinity or NaN, whatever the
    dividend: its conversion is the least [int]. *)
Lemma ceil_quotient_zero_divisor (n : Z) : ceil_quotient n 0 = GoInt.int_min.
Proof.
  unfold ceil_quotient.
  change (Float64.of_int 0) with (S754_zero false).
  destruct (Float64.of_int n) as [s | s | | s m e]; reflexivity.
Qed.

(** X10.  A page size of 0 raises nothing in [New]: the quotient by zero
    is an infinity or NaN, its conversion is the least [int], and so are
    the page count and the current page; the offset is 0, [Show] is
    false, [Pages] panics on the negative capacity and the stream is
    closed at once. *)
Theorem X10_zero_page_size (n q : Z) (fuel : nat) :
  GoInt.in_int q ->
  let p := New n 0 q in
  NumberOfPages p = GoInt.int_min /\
  CurrentPage p = GoInt.int_min /\
  Offset p = 0 /\
  Show p = false /\
  Pages fuel p = Some (Panicked "makeslice: cap out of range") /\
  PagesStream p = Exited.
Proof.
  intros Hq p.
  assert (HN : NumberOfPages p = GoInt.int_min).
  { unfold p. rewrite NumberOfPages_New. apply ceil_quotient_zero_divisor. }
  assert (Hcp : CurrentPage p = GoInt.int_min).
  { unfold p. rewrite CurrentPage_New, ceil_quotient_zero_divisor. cbv zeta.
    int_bounds.
    destruct (Z.eqb_spec q 0);
      match goal with |- context [?a >? ?b] => destruct (Z.gtb_spec a b) end; lia. }
  split; [exact HN|]. split; [exact Hcp|]. split; [|split; [|split]].
  - unfold Offset. change (ItemsPerPage p) with 0.
    unfold GoInt.mul. rewrite Z.mul_0_r. reflexivity.
  - unfold Show. rewrite HN. reflexivity.
  - unfold Pages. rewrite HN. reflexivity.
  - unfold PagesStream, producer_at. rewrite HN. reflexivity.
Qed.

Lemma X10_zero_page_size_witness :
  NumberOfPages (New 10 0 1) = GoInt.int_min /\
  CurrentPage (New 10 0 1) = GoInt.int_min /\
  Offset (New 10 0 1) = 0 /\
  Show (New 10 0 1) = false /\
  Pages 1 (New 10 0 1) = Some (Panicked "makeslice: cap out of range") /\
  PagesStream (New 10 0 1) = Exited.
Proof.
  apply (X10_zero_page_size 10 1 1). int_lia.
Defined.

(** X11.  For an empty collection, whatever page that is not negative is
    requested: there are 0 pages, the current page is 0, the offset is
    [- perPage], the previous page is 1 and the next page is 0, [Show] is
    false, [Pages] is empty and the stream is closed at once. *)
Theorem X11_empty_collection (perPage q : Z) (fuel : nat) :
  0 < perPage <= GoInt.int_max -> 0 <= q ->
  let p := New 0 perPage q in
  NumberOfPages p = 0 /\
  CurrentPage p = 0 /\
  Offset p = - perPage /\
  PreviousPage p = 1 /\
  NextPage p = 0 /\
  Show p = false /\
  Pages (S fuel) p = Some (Returned []) /\
  PagesStream p = Exited.
Proof.
  intros Hd Hq p.
  assert (H0 : ceil_quotient 0 perPage = 0).
  { rewrite ceil_quotient_ceil_div; [| unfold exact_int; lia | exact Hd].
    unfold ceil_div. apply Z.div_small. lia. }
  assert (HN : NumberOfPages p = 0) by (unfold p; rewrite NumberOfPages_New; exact H0).
  assert (Hcp : CurrentPage p = 0).
  { unfold p. rewrite CurrentPage_New, H0. cbv zeta.
    destruct (Z.eqb_spec q 0);
      match goal with |- context [?a >? ?b] => destruct (Z.gtb_spec a b) end; lia. }
  split; [exact HN|]. split; [exact Hcp|].
  split; [|split; [|split; [|split; [|split]]]].
  - unfold Offset. rewrite Hcp. change (ItemsPerPage p) with perPage.
    unfold GoInt.mul, GoInt.sub.
    rewrite (wrap_in_int (0 - 1)) by int_lia.
    rewrite wrap_in_int by int_lia. lia.
  - unfold PreviousPage. rewrite Hcp. reflexivity.
  - unfold NextPage. rewrite Hcp, HN. reflexivity.
  - unfold Show. rewrite HN. reflexivity.
  - unfold Pages. rewrite HN.
    change (runtime.makeslice_cap_ok 0) with true.
    cbn [Pages_loop]. rewrite HN. reflexivity.
  - unfold PagesStream, producer_at. rewrite HN. reflexivity.
Qed.

Lemma X11_empty_collection_witness :
  NumberOfPages (New 0 25 3) = 0 /\
  CurrentPage (New 0 25 3) = 0 /\
  Offset (New 0 25 3) = - 25 /\
  PreviousPage (New 0 25 3) = 1 /\
  NextPage (New 0 25 3) = 0 /\
  Show (New 0 25 3) = false /\
  Pages 1 (New 0 25 3) = Some (Returned []) /\
  PagesStream (New 0 25 3) = Exited.
Proof.
  apply (X11_empty_collection 25 3 0); int_lia.
Defined.

Lemma NewFromRequest_first_value (n perPage : Z) (req : Request)
    (s : string) (rest : list string) :
  Query (req_URL req) !! "page"%string = Some (s :: rest) ->
  NewFromRequest n perPage req = New n perPage (fst (strconv.Atoi s)).
Proof.
  intros Hlk. unfold NewFromRequest, Values_Get. rewrite Hlk.
  destruct (strconv.Atoi s) as [cp err]. reflexivity.
Qed.

(** X12.  When the first [page] value of the query is a decimal numeral
    within [int], the paginator of [NewFromRequest] is on that page,
    raised to 1 and capped at the page count. *)
Theorem X12_requested_numeral (n perPage : Z) (req : Request)
    (s : string) (rest : list string) :
  exact_int n -> 0 < perPage <= GoInt.int_max ->
  Query (req_URL req) !! "page"%string = Some (s :: rest) ->
  all_digits s = true -> s <> ""%string -> decimal_value s 0 <= GoInt.int_max ->
  CurrentPage (NewFromRequest n perPage req)
  = Z.min (Z.max 1 (decimal_value s 0)) (ceil_div n perPage).
Proof.
  intros Hn Hd Hlk Hall Hne Hv.
  rewrite (NewFromRequest_first_value n perPage req s rest Hlk).
  rewrite Atoi_decimal by assumption. cbn [fst].
  pose proof (decimal_value_ge s 0 ltac:(lia)) as Hge.
  destruct (Z.eq_dec (decimal_value s 0) 0) as [H0 | H0].
  - rewrite H0, CurrentPage_New. cbv zeta.
    rewrite ceil_quotient_ceil_div by assumption.
    change (0 =? 0) with true. cbv iota.
    destruct (Z.gtb_spec 1 (ceil_div n perPage)); lia.
  - destruct (New_clamp n perPage (decimal_value s 0) Hn Hd H0) as (Hgt & Hle & _).
    destruct (Z.le_gt_cases (decimal_value s 0) (ceil_div n perPage)).
    + rewrite Hle by lia. lia.
    + rewrite Hgt by lia. lia.
Qed.

Lemma X12_requested_numeral_witness :
  CurrentPage (NewFromRequest 10 2
    (mkRequest (mkURL {[ "page"%string := ["7"%string] ]})))
  = Z.min (Z.max 1 (decimal_value "7" 0)) (ceil_div 10 2).
Proof.
  apply (X12_requested_numeral 10 2 _ "7" []);
    [unfold exact_int; lia | unfold GoInt.int_max; lia | reflexivity
    | reflexivity | discriminate | vm_compute; discriminate].
Defined.

Lemma Atoi_negative_decimal (s : string) :
  all_digits s = true -> s <> ""%string -> decimal_value s 0 <= 2 ^ 63 ->
  strconv.Atoi (String "-" s) = (- decimal_value s 0, None).
Proof.
  intros Hall Hne Hv. unfold strconv.Atoi, strconv.ParseInt.
  change (Ascii.eqb "-" "-") with true. rewrite orb_true_r.
  unfold strconv.ParseUint. destruct s as [|c rest]; [contradiction|].
  rewrite ParseUint_loop_decimal;
    [ | exact Hall | lia | unfold strconv.maxUint64; lia ].
  cbn [negb andb].
  destruct (Z.gtb_spec (decimal_value (String c rest) 0) (2 ^ 63)); [lia|].
  reflexivity.
Qed.

(** X13.  A [page] value that is a minus sign and a decimal numeral
    between 1 and [2 ^ 63] is accepted as it is: the current page of the
    paginator is that negative number. *)
Theorem X13_negative_numeral (n perPage : Z) (req : Request)
    (s : string) (rest : list string) :
  exact_int n -> 0 < perPage <= GoInt.int_max ->
  Query (req_URL req) !! "page"%string = Some (String "-" s :: rest) ->
  all_digits s = true -> s <> ""%string -> 1 <= decimal_value s 0 <= 2 ^ 63 ->
  CurrentPage (NewFromRequest n perPage req) = - decimal_value s 0 /\
  CurrentPage (NewFromRequest n perPage req) < 0.
Proof.
  intros Hn Hd Hlk Hall Hne Hv.
  rewrite (NewFromRequest_first_value n perPage req _ rest Hlk).
  rewrite Atoi_negative_decimal by (assumption || lia). cbn [fst].
  destruct (New_clamp n perPage (- decimal_value s 0) Hn Hd ltac:(lia))
    as (_ & Hle & Hnn).
  rewrite Hle by lia. lia.
Qed.

Lemma X13_negative_numeral_witness :
  CurrentPage (NewFromRequest 10 2
    (mkRequest (mkURL {[ "page"%string := ["-3"%string] ]})))
  = - decimal_value "3" 0 /\
  CurrentPage (NewFromRequest 10 2
    (mkRequest (mkURL {[ "page"%string := ["-3"%string] ]}))) < 0.
Proof.
  apply (X13_negative_numeral 10 2 _ "3" []);
    [unfold exact_int; lia | unfold GoInt.int_max; lia | reflexivity
    | reflexivity | discriminate | vm_compute; split; discriminate].
Defined.

(** X14.  [NewFromRequest] reads nothing but the first value stored under
    [page]: another parameter of the query and further values of [page]
    do not change the paginator, and a [page] key without a value counts
    as a missing one. *)
Theorem X14_only_the_first_page_value (n perPage : Z)
    (query : gmap string (list string)) (k : string) (v : list string)
    (x : string) (rest : list string) :
  k <> "page"%string ->
  NewFromRequest n perPage (mkRequest (mkURL (<[k := v]> query)))
  = NewFromRequest n perPage (mkRequest (mkURL query)) /\
  NewFromRequest n perPage (mkRequest (mkURL (<["page"%string := x :: rest]> query)))
  = NewFromRequest n perPage (mkRequest (mkURL (<["page"%string := [x]]> query))) /\
  NewFromRequest n perPage (mkRequest (mkURL (<["page"%string := []]> query)))
  = New n perPage 0.
Proof.
  intros Hk. unfold NewFromRequest, Values_Get. cbn [Query req_URL].
  rewrite lookup_insert_ne by exact Hk.
  rewrite !lookup_insert_eq.
  repeat split; reflexivity.
Qed.

Lemma X14_only_the_first_page_value_witness :
  NewFromRequest 10 2 (mkRequest (mkURL (<["sort"%string := ["asc"%string]]> ∅)))
  = NewFromRequest 10 2 (mkRequest (mkURL ∅)) /\
  NewFromRequest 10 2
    (mkRequest (mkURL (<["page"%string := ["2"%string; "7"%string]]> ∅)))
  = NewFromRequest 10 2 (mkRequest (mkURL (<["page"%string := ["2"%string]]> ∅))) /\
  NewFromRequest 10 2 (mkRequest (mkURL (<["page"%string := []]> ∅)))
  = New 10 2 0.
Proof.
  apply (X14_only_the_first_page_value 10 2 ∅ "sort" ["asc"%string] "2" ["7"%string]).
  discriminate.
Defined.

Lemma Zseq_app (a : nat) : forall (lo : Z) (b : nat),
  Zseq lo (a + b) = Zseq lo a ++ Zseq (lo + Z.of_nat a) b.
Proof.
  induction a as [|a IH]; intros lo b.
  - cbn [Nat.add Zseq app]. f_equal. lia.
  - cbn [Nat.add Zseq app]. rewrite IH. do 3 f_equal. lia.
Qed.

(** X15.  The stream is consumed once, in order, however the receives
    are grouped: a consumer that takes [k] values and then ranges over
    what is left has received, together, the pages 1 to [NumberOfPages],
    and the goroutine has returned. *)
Theorem X15_stream_resumes (n perPage q : Z) (k fuel : nat) :
  0 <= n <= GoInt.int_max -> 0 < perPage <= GoInt.int_max ->
  let p := New n perPage q in
  0 <= NumberOfPages p -> (Z.to_nat (NumberOfPages p) < fuel)%nat ->
  range_stream fuel p
    (snd (take_stream k p (PagesStream p) []))
    (fst (take_stream k p (PagesStream p) []))
  = Some (Zseq 1 (Z.to_nat (NumberOfPages p)), Exited).
Proof.
  intros Hn Hd p HN Hf.
  assert (Hmax : NumberOfPages p < GoInt.int_max).
  { destruct (ceil_quotient_sign n perPage Hn Hd) as [Hmin | Hpos];
      change (ceil_quotient n perPage) with (NumberOfPages p) in *;
      [int_lia | apply Hpos]. }
  unfold PagesStream.
  destruct (Z.lt_ge_cases (Z.of_nat k) (NumberOfPages p)) as [Hk | Hk].
  - rewrite (take_stream_partial p Hmax) by lia. cbn [fst snd app].
    rewrite (range_stream_run p Hmax (Z.to_nat (NumberOfPages p) - k)) by lia.
    replace (Z.to_nat (NumberOfPages p)) with (k + (Z.to_nat (NumberOfPages p) - k))%nat
      at 2 by lia.
    rewrite Zseq_app. reflexivity.
  - rewrite (take_stream_exhaust p Hmax) by lia. cbn [fst snd app].
    destruct fuel as [|fuel]; [lia|]. cbn [range_stream receive].
    do 3 f_equal. lia.
Qed.

Lemma X15_stream_resumes_witness :
  range_stream 5 (New 10 3 1)
    (snd (take_stream 2 (New 10 3 1) (PagesStream (New 10 3 1)) []))
    (fst (take_stream 2 (New 10 3 1) (PagesStream (New 10 3 1)) []))
  = Some (Zseq 1 (Z.to_nat (NumberOfPages (New 10 3 1))), Exited).
Proof.
  apply (X15_stream_resumes 10 3 1 2 5);
    [int_lia | int_lia | vm_compute; discriminate | vm_compute; lia].
Defined.

(** X16.  Below [2 ^ 53] items the page count never decreases when items
    are added, and one more page of items is exactly one more page. *)
Theorem X16_page_count_grows_with_items (n n' perPage q q' : Z) :
  exact_int n -> exact_int n' -> 0 < perPage <= GoInt.int_max ->
  (n <= n' ->
   NumberOfPages (New n perPage q) <= NumberOfPages (New n' perPage q')) /\
  (n' = n + perPage ->
   NumberOfPages (New n' perPage q') = NumberOfPages (New n perPage q) + 1).
Proof.
  intros Hn Hn' Hd. rewrite !NumberOfPages_New.
  rewrite !ceil_quotient_ceil_div by assumption.
  pose proof (ceil_div_spec n perPage ltac:(lia)) as Hs.
  pose proof (ceil_div_spec n' perPage ltac:(lia)) as Hs'.
  split; intros H; nia.
Qed.

Lemma X16_page_count_grows_with_items_witness :
  NumberOfPages (New 10 3 1) <= NumberOfPages (New 13 3 1) /\
  NumberOfPages (New 13 3 1) = NumberOfPages (New 10 3 1) + 1.
Proof.
  destruct (X16_page_count_grows_with_items 10 13 3 1 1) as [Hmono Hstep];
    [unfold exact_int; lia | unfold exact_int; lia | int_lia |].
  split; [apply Hmono | apply Hstep]; lia.
Defined.

(** X17.  For a collection that is not empty, [IsCurrentPage] of the
    requested page tells whether the request was served as it was made:
    it is true exactly when the page is not the zero sentinel and not
    beyond the last page. *)
Theorem X17_requested_page_served (n perPage q : Z) :
  exact_int n -> 1 <= n -> 0 < perPage <= GoInt.int_max ->
  IsCurrentPage (New n perPage q) q = true
  <-> q <> 0 /\ q <= ceil_div n perPage.
Proof.
  intros Hn Hn1 Hd. unfold IsCurrentPage.
  pose proof (ceil_div_pos n perPage ltac:(lia) Hn1) as Hc.
  destruct (Z.eq_dec q 0) as [-> | Hq].
  - rewrite (New_page_zero_is_first n perPage Hn Hn1 Hd).
    split; [intros H; discriminate H | intros [H _]; lia].
  - destruct (New_clamp n perPage q Hn Hd Hq) as (Hgt & Hle & _).
    destruct (Z.le_gt_cases q (ceil_div n perPage)) as [Hin | Hout].
    + rewrite Hle by lia. rewrite Z.eqb_refl. split; [intros _; lia | reflexivity].
    + rewrite Hgt by lia. split.
      * intros H. apply Z.eqb_eq in H. lia.
      * intros [_ H]. lia.
Qed.

Lemma X17_requested_page_served_witness :
  IsCurrentPage (New 10 3 2) 2 = true <-> 2 <> 0 /\ 2 <= ceil_div 10 3.
Proof.
  apply (X17_requested_page_served 10 3 2); unfold exact_int, GoInt.int_max; lia.
Defined.
